(** * Transformer text encoder: pooling dispatch and registry

    A shallow embedding of [jina/executors/encoders/nlp/transformer.py]:
    the tokenizer/model registries, [_init_tokenizer], the two
    [_init_model] variants, and [encode] with its pooling dispatch.

    Python exceptions are values of [exn]; logging, tokenizer calls and
    the forward pass are recorded as [event]s in a small writer/error
    monad [M], so that the order of effects can be stated.

    Hidden states are idealised as rationals ([Q]): rounding and NaN of
    the machine floats are outside the model. *)

From Stdlib Require Import List String Ascii ZArith QArith Bool Lia.
Import ListNotations.

Local Open Scope list_scope.
Local Open Scope Z_scope.

(** ** Python values used by the encoder *)

Inductive exn_class : Type :=
| ValueError
| KeyError
| AttributeError
| IndexError
| NotImplementedError
| EmptySequenceError.

(** An exception instance: its class and the arguments it was built
    with.  [raise ValueError] instantiates the class with no argument. *)
Record exn : Type := Exn { exn_cls : exn_class; exn_args : list string }.

(** [str(e)] for the instances that occur here: the single argument, or
    the empty string when there is none. *)
Definition exn_message (e : exn) : string :=
  match exn_args e with
  | [] => EmptyString
  | a :: _ => a
  end.

(** The names the specification gives to the two errors raised by the
    adapter itself. *)
Definition UnsupportedModelError : exn_class := ValueError.
Definition UnsupportedPoolingError : exn_class := NotImplementedError.

Inductive result (A : Type) : Type :=
| Ok (a : A)
| Raised (e : exn).
Arguments Ok {A} a.
Arguments Raised {A} e.

(** [sub in s] on Python strings: substring test. *)
Fixpoint str_in (sub s : string) : bool :=
  String.prefix sub s ||
  match s with
  | EmptyString => false
  | String _ s' => str_in sub s'
  end.

(** [x in (a, b, ...)] on a tuple of strings. *)
Definition in_tuple (x : string) (t : list string) : bool :=
  existsb (String.eqb x) t.

(** A Python dict with string keys, as an insertion-ordered association
    list ([keys()] is observable through the logged message). *)
Definition dict (V : Type) : Type := list (string * V).

Fixpoint dict_get {V} (d : dict V) (k : string) : option V :=
  match d with
  | [] => None
  | (k', v) :: d' => if String.eqb k k' then Some v else dict_get d' k
  end.

Definition dict_contains {V} (d : dict V) (k : string) : bool :=
  match dict_get d k with Some _ => true | None => false end.

Definition dict_keys {V} (d : dict V) : list string := map fst d.

(** ** Tensors *)

Definition vec : Type := list Q.
Definition tensor2 : Type := list vec.
Definition tensor3 : Type := list (list vec).
Definition int_matrix : Type := list (list Z).

Inductive device : Type := Host | Accelerator.

(** A backend tensor: the array it holds and where it lives. *)
Record tensor (A : Type) : Type := Tensor { t_data : A; t_device : device }.
Arguments Tensor {A} t_data t_device.
Arguments t_data {A} t.
Arguments t_device {A} t.

(** ** Registries *)

Inductive TokenizerClass : Type :=
| BertTokenizer | OpenAIGPTTokenizer | GPT2Tokenizer | XLNetTokenizer
| XLMTokenizer | DistilBertTokenizer | RobertaTokenizer
| XLMRobertaTokenizer | FlaubertTokenizer | CamembertTokenizer
| CTRLTokenizer.

Inductive ModelClass : Type :=
| TFBertModel | TFOpenAIGPTModel | TFGPT2Model | TFXLNetModel | TFXLMModel
| TFDistilBertModel | TFRobertaModel | TFXLMRobertaModel
| TFCamembertModel | TFCTRLModel
| BertModel | OpenAIGPTModel | GPT2Model | XLNetModel | XLMModel
| DistilBertModel | RobertaModel | XLMRobertaModel | FlaubertModel
| CamembertModel | CTRLModel.

Definition tokenizer_dict : dict TokenizerClass :=
  [ ("bert-base-uncased", BertTokenizer);
    ("openai-gpt", OpenAIGPTTokenizer);
    ("gpt2", GPT2Tokenizer);
    ("xlnet-base-cased", XLNetTokenizer);
    ("xlm-mlm-enfr-1024", XLMTokenizer);
    ("distilbert-base-cased", DistilBertTokenizer);
    ("roberta-base", RobertaTokenizer);
    ("xlm-roberta-base", XLMRobertaTokenizer);
    ("flaubert-base-cased", FlaubertTokenizer);
    ("camembert-base", CamembertTokenizer);
    ("ctrl", CTRLTokenizer) ]%string.

Definition tf_model_dict : dict ModelClass :=
  [ ("bert-base-uncased", TFBertModel);
    ("openai-gpt", TFOpenAIGPTModel);
    ("gpt2", TFGPT2Model);
    ("xlnet-base-cased", TFXLNetModel);
    ("xlm-mlm-enfr-1024", TFXLMModel);
    ("distilbert-base-cased", TFDistilBertModel);
    ("roberta-base", TFRobertaModel);
    ("xlm-roberta-base", TFXLMRobertaModel);
    ("camembert-base", TFCamembertModel);
    ("ctrl", TFCTRLModel) ]%string.

Definition torch_model_dict : dict ModelClass :=
  [ ("bert-base-uncased", BertModel);
    ("openai-gpt", OpenAIGPTModel);
    ("gpt2", GPT2Model);
    ("xlnet-base-cased", XLNetModel);
    ("xlm-mlm-enfr-1024", XLMModel);
    ("distilbert-base-cased", DistilBertModel);
    ("roberta-base", RobertaModel);
    ("xlm-roberta-base", XLMRobertaModel);
    ("flaubert-base-cased", FlaubertModel);
    ("camembert-base", CamembertModel);
    ("ctrl", CTRLModel) ]%string.

(** The closed set of identities the specification puts in scope. *)
Definition supported_models : list string :=
  [ "bert-base-uncased"; "openai-gpt"; "gpt2"; "xlnet-base-cased";
    "xlm-mlm-enfr-1024"; "distilbert-base-cased"; "roberta-base";
    "xlm-roberta-base"; "flaubert-base-cased"; "camembert-base";
    "ctrl" ]%string.

(** ** Effects *)

Inductive event : Type :=
| LogError (msg : string)
| LoadTokenizer (c : TokenizerClass) (path : string)
| LoadModel (c : ModelClass) (path : string)
| Tokenize (text : string) (max_length : Z)
| Infer (token_ids mask_ids : int_matrix).

(** Computations that record events and may raise.  The events emitted
    before an exception are kept. *)
Definition M (A : Type) : Type := (list event * result A)%type.

Definition ret {A} (a : A) : M A := ([], Ok a).
Definition raise {A} (e : exn) : M A := ([], Raised e).
Definition emit (ev : event) : M unit := ([ev], Ok tt).

Definition bind {A B} (m : M A) (k : A -> M B) : M B :=
  match m with
  | (t, Raised e) => (t, Raised e)
  | (t, Ok a) => let (t', r) := k a in (t ++ t', r)
  end.

Definition lift {A} (r : result A) : M A := ([], r).

Definition trace {A} (m : M A) : list event := fst m.
Definition outcome {A} (m : M A) : result A := snd m.

Declare Scope py_scope.
Delimit Scope py_scope with py.
Notation "x <- c ;; k" := (bind c (fun x => k))
  (at level 61, c at next level, right associativity) : py_scope.
Notation "c ;;; k" := (bind c (fun _ => k))
  (at level 61, right associativity) : py_scope.

(** ** Reduction engine

    [reduce_mean], [reduce_max], [reduce_min] and [reduce_cls] are
    imported by the encoder from [..helper]; their rules are taken from
    the design's reduction table. *)

Inductive cls_position : Type := head | tail.

Definition empty_sequence {A} : result A := Raised (Exn EmptySequenceError []).
Definition index_error {A} : result A := Raised (Exn IndexError []).

(** The token vectors of one row at the positions whose mask entry is 1,
    in sequence order. *)
Fixpoint selected (row_s : list vec) (row_m : list Z) : list vec :=
  match row_s, row_m with
  | v :: row_s', m :: row_m' =>
      if m =? 1 then v :: selected row_s' row_m' else selected row_s' row_m'
  | _, _ => []
  end.

Fixpoint zip_with (f : Q -> Q -> Q) (a b : vec) : vec :=
  match a, b with
  | x :: a', y :: b' => f x y :: zip_with f a' b'
  | _, _ => []
  end.

Definition qmax (a b : Q) : Q := if Qle_bool a b then b else a.
Definition qmin (a b : Q) : Q := if Qle_bool a b then a else b.

(** Elementwise combination of a non-empty list of vectors. *)
Definition fold_vecs (f : Q -> Q -> Q) (v : vec) (vs : list vec) : vec :=
  fold_left (zip_with f) vs v.

Definition reduce_row_with (f : Q -> Q -> Q) (row_s : list vec) (row_m : list Z)
  : result vec :=
  match selected row_s row_m with
  | [] => empty_sequence
  | v :: vs => Ok (fold_vecs f v vs)
  end.

Definition reduce_mean_row (row_s : list vec) (row_m : list Z) : result vec :=
  match selected row_s row_m with
  | [] => empty_sequence
  | v :: vs =>
      let n := inject_Z (Z.of_nat (List.length (v :: vs))) in
      Ok (map (fun x => (x / n)%Q) (fold_vecs Qplus v vs))
  end.

(** The highest index [j] with [mask[j] == 1], if there is one. *)
Fixpoint last_real_index (row_m : list Z) : option nat :=
  match row_m with
  | [] => None
  | m :: row_m' =>
      match last_real_index row_m' with
      | Some j => Some (S j)
      | None => if m =? 1 then Some 0%nat else None
      end
  end.

Definition reduce_cls_row (cls_pos : cls_position)
  (row_s : list vec) (row_m : list Z) : result vec :=
  match cls_pos with
  | head =>
      match row_s with
      | v :: _ => Ok v
      | [] => index_error
      end
  | tail =>
      match last_real_index row_m with
      | None => empty_sequence
      | Some j =>
          match nth_error row_s j with
          | Some v => Ok v
          | None => index_error
          end
      end
  end.

(** Row-wise application over a batch; the first failing row fails the
    whole batch. *)
Fixpoint map_rows {A B C} (f : A -> B -> result C) (xs : list A) (ys : list B)
  : result (list C) :=
  match xs, ys with
  | x :: xs', y :: ys' =>
      match f x y with
      | Raised e => Raised e
      | Ok c =>
          match map_rows f xs' ys' with
          | Raised e => Raised e
          | Ok cs => Ok (c :: cs)
          end
      end
  | _, _ => Ok []
  end.

(** Modelled from the spec: [reduce_mean] of [..helper] is not in the
    sources.  For each row, average [seq[b,j,:]] over the [j] with
    [mask[b,j] == 1]; a row without such a [j] is an [EmptySequenceError]. *)
Definition reduce_mean (seq : tensor3) (mask : int_matrix) : result tensor2 :=
  map_rows reduce_mean_row seq mask.

(** Modelled from the spec: [reduce_max] of [..helper] is not in the
    sources.  For each row, the elementwise maximum of [seq[b,j,:]] over
    the [j] with [mask[b,j] == 1]; masked-out positions are excluded. *)
Definition reduce_max (seq : tensor3) (mask : int_matrix) : result tensor2 :=
  map_rows (reduce_row_with qmax) seq mask.

(** Modelled from the spec: [reduce_min] of [..helper] is not in the
    sources.  Symmetric to [reduce_max]. *)
Definition reduce_min (seq : tensor3) (mask : int_matrix) : result tensor2 :=
  map_rows (reduce_row_with qmin) seq mask.

(** Modelled from the spec: [reduce_cls] of [..helper] is not in the
    sources.  [head] takes the token at index 0 of each row; [tail] the
    token at the highest index [j] with [mask[b,j] == 1]. *)
Definition reduce_cls (seq : tensor3) (mask : int_matrix) (cls_pos : cls_position)
  : result tensor2 :=
  map_rows (reduce_cls_row cls_pos) seq mask.

(** Shape agreement between a sequence output [B][L][D] and a mask
    [B][L]. *)
Definition row_shape_ok (D : nat) (row_s : list vec) (row_m : list Z) : bool :=
  Nat.eqb (List.length row_s) (List.length row_m) &&
  forallb (fun v => Nat.eqb (List.length v) D) row_s.

Fixpoint shape_ok (D : nat) (seq : tensor3) (mask : int_matrix) : bool :=
  match seq, mask with
  | [], [] => true
  | row_s :: seq', row_m :: mask' =>
      row_shape_ok D row_s row_m && shape_ok D seq' mask'
  | _, _ => false
  end.

(** A mask row with at least one real token, and one with none. *)
Definition has_real (row_m : list Z) : bool := existsb (Z.eqb 1) row_m.
Definition all_zero (row_m : list Z) : bool := forallb (Z.eqb 0) row_m.

(** ** The encoder object *)

(** What the adapter knows of a tokenizer and a model obtained with
    [from_pretrained]: the class, the path or name it was loaded from,
    and the attributes the adapter sets afterwards. *)
Record PreTrainedTokenizer : Type := MkTokenizer {
  tok_class : TokenizerClass;
  tok_path : string;
  padding_side : option string;
  pad_token : option string }.

Record PreTrainedModel : Type := MkModel {
  mdl_class : ModelClass;
  mdl_path : string;
  mdl_embeddings : option nat }.

(** The external collaborators: file system, tokenizer library and
    forward pass.  [tokenizer_encode tk text n] stands for
    [tk.encode(text, pad_to_max_length=True, max_length=n)]; [model_call]
    returns the sequence output and the list of extra outputs. *)
Record environment : Type := MkEnv {
  path_exists : string -> bool;
  get_file_from_workspace : string -> string;
  tokenizer_encode : PreTrainedTokenizer -> string -> Z -> list Z;
  pad_token_id : PreTrainedTokenizer -> option Z;
  tokenizer_len : PreTrainedTokenizer -> nat;
  model_call : PreTrainedModel -> tensor int_matrix -> tensor int_matrix ->
               tensor tensor3 * list (tensor tensor2) }.

Inductive framework : Type := TF | Torch.
Inductive tensor_func : Type := tf_constant | torch_tensor.

(** [self].  Attributes assigned only by [post_init] are optional: reading
    one that was never assigned raises [AttributeError]. *)
Record encoder : Type := MkEncoder {
  variant : framework;
  on_gpu : bool;
  model_name : string;
  pooling_strategy : string;
  max_length : Z;
  raw_model_path : string;
  _tmp_model_path : option string;
  tokenizer : option PreTrainedTokenizer;
  cls_pos : option cls_position;
  model : option PreTrainedModel;
  _tensor_func : option tensor_func }.

Definition __init__ (v : framework) (gpu : bool)
  (model_name pooling_strategy : string) (max_length : Z) (model_path : string)
  : encoder :=
  MkEncoder v gpu model_name pooling_strategy max_length model_path
            None None None None None.

Definition set_tmp_model_path (self : encoder) (p : string) : encoder :=
  MkEncoder (variant self) (on_gpu self) (model_name self)
            (pooling_strategy self) (max_length self) (raw_model_path self)
            (Some p) (tokenizer self) (cls_pos self) (model self)
            (_tensor_func self).

Definition set_tokenizer (self : encoder) (tk : PreTrainedTokenizer) : encoder :=
  MkEncoder (variant self) (on_gpu self) (model_name self)
            (pooling_strategy self) (max_length self) (raw_model_path self)
            (_tmp_model_path self) (Some tk) (cls_pos self) (model self)
            (_tensor_func self).

Definition set_cls_pos (self : encoder) (p : cls_position) : encoder :=
  MkEncoder (variant self) (on_gpu self) (model_name self)
            (pooling_strategy self) (max_length self) (raw_model_path self)
            (_tmp_model_path self) (tokenizer self) (Some p) (model self)
            (_tensor_func self).

Definition set_model (self : encoder) (m : PreTrainedModel) (f : tensor_func)
  : encoder :=
  MkEncoder (variant self) (on_gpu self) (model_name self)
            (pooling_strategy self) (max_length self) (raw_model_path self)
            (_tmp_model_path self) (tokenizer self) (cls_pos self) (Some m)
            (Some f).

Definition set_padding_side (tk : PreTrainedTokenizer) (s : string)
  : PreTrainedTokenizer :=
  MkTokenizer (tok_class tk) (tok_path tk) (Some s) (pad_token tk).

Definition set_pad_token (tk : PreTrainedTokenizer) (s : string)
  : PreTrainedTokenizer :=
  MkTokenizer (tok_class tk) (tok_path tk) (padding_side tk) (Some s).

Definition resize_token_embeddings (m : PreTrainedModel) (n : nat)
  : PreTrainedModel :=
  MkModel (mdl_class m) (mdl_path m) (Some n).

Definition getattr {A} (name : string) (o : option A) : M A :=
  match o with
  | Some a => ret a
  | None => raise (Exn AttributeError [name])
  end.

(** [d[k]]: a missing key raises [KeyError(k)]. *)
Definition dict_index {V} (d : dict V) (k : string) : M V :=
  match dict_get d k with
  | Some v => ret v
  | None => raise (Exn KeyError [k])
  end.

(** [t == pad] where [pad] is an int or [None]. *)
Definition py_eq (t : Z) (pad : option Z) : bool :=
  match pad with
  | Some p => t =? p
  | None => false
  end.

(** [[0 if t == pad_token_id else 1 for t in token_ids]] *)
Definition mask_of (pad : option Z) (token_ids : list Z) : list Z :=
  map (fun t => if py_eq t pad then 0 else 1) token_ids.

Definition native_pooled_models : list string :=
  [ "bert-base-uncased"; "roberta-base" ]%string.

Definition head_models : list string :=
  [ "bert-base-uncased"; "distilbert-base-cased"; "roberta-base";
    "xlm-roberta-base"; "flaubert-base-cased"; "camembert-base" ]%string.

Definition custom_pad_models : list string :=
  [ "openai-gpt"; "gpt2"; "xlm-mlm-enfr-1024"; "xlnet-base-cased" ]%string.

Definition resize_models : list string :=
  [ "xlnet-base-cased"; "openai-gpt"; "gpt2"; "xlm-mlm-enfr-1024" ]%string.

Definition apply_tensor_func {A} (f : tensor_func) (array : A) : tensor A :=
  match f with
  | tf_constant => Tensor array Host
  | torch_tensor => Tensor array Host
  end.

Definition cuda {A} (t : tensor A) : tensor A := Tensor (t_data t) Accelerator.
Definition cpu {A} (t : tensor A) : tensor A := Tensor (t_data t) Host.
Definition numpy {A} (t : tensor A) : A := t_data t.

Section Encoder.

Variable env : environment.

Local Open Scope py_scope.

Definition model_abspath (self : encoder) : string :=
  get_file_from_workspace env (raw_model_path self).

Definition not_supported_message (name : string) : string :=
  (name ++ " not in our supports: "
        ++ String.concat "," (dict_keys tokenizer_dict))%string.

Definition _init_tokenizer (self : encoder) : M encoder :=
  if negb (dict_contains tokenizer_dict (model_name self)) then
    emit (LogError (not_supported_message (model_name self))) ;;;
    raise (Exn ValueError [])
  else
    let self := set_tmp_model_path self (model_name self) in
    let self :=
      if path_exists env (model_abspath self)
      then set_tmp_model_path self (model_abspath self)
      else self in
    cls <- dict_index tokenizer_dict (model_name self) ;;
    path <- getattr "_tmp_model_path" (_tmp_model_path self) ;;
    emit (LoadTokenizer cls path) ;;;
    let tk := MkTokenizer cls path None None in
    let tk := set_padding_side tk "right" in
    let self := set_tokenizer self tk in
    let self :=
      if in_tuple (model_name self) head_models then set_cls_pos self head
      else if str_in (model_name self) "xlnet-base-cased"
           then set_cls_pos self tail
           else self in
    if in_tuple (model_name self) custom_pad_models then
      tk <- getattr "tokenizer" (tokenizer self) ;;
      ret (set_tokenizer self (set_pad_token tk "<PAD>"))
    else ret self.

(** The body shared by the two [_init_model] variants once the class
    table and the tensor constructor are fixed: look the class up, load
    it from [_tmp_model_path], record [_tensor_func], and resize the
    embeddings for the names that got a custom pad token.  Device
    placement ([to_device]) and the choice of [_sess_func] do not change
    any value read here and are left out. *)
Definition init_model_with (model_dict : dict ModelClass) (f : tensor_func)
  (self : encoder) : M encoder :=
  cls <- dict_index model_dict (model_name self) ;;
  path <- getattr "_tmp_model_path" (_tmp_model_path self) ;;
  emit (LoadModel cls path) ;;;
  let self := set_model self (MkModel cls path None) f in
  if in_tuple (model_name self) resize_models then
    m <- getattr "model" (model self) ;;
    tk <- getattr "tokenizer" (tokenizer self) ;;
    ret (set_model self (resize_token_embeddings m (tokenizer_len env tk)) f)
  else ret self.

Definition TransformerTFEncoder_init_model : encoder -> M encoder :=
  init_model_with tf_model_dict tf_constant.

Definition TransformerTorchEncoder_init_model : encoder -> M encoder :=
  init_model_with torch_model_dict torch_tensor.

Definition _init_model (self : encoder) : M encoder :=
  match variant self with
  | TF => TransformerTFEncoder_init_model self
  | Torch => TransformerTorchEncoder_init_model self
  end.

Definition post_init (self : encoder) : M encoder :=
  self <- _init_tokenizer self ;;
  _init_model self.

Definition array2tensor {A} (self : encoder) (array : A) : M (tensor A) :=
  f <- getattr "_tensor_func" (_tensor_func self) ;;
  let t := apply_tensor_func f array in
  match variant self with
  | TF => ret t
  | Torch => ret (if on_gpu self then cuda t else t)
  end.

Definition tensor2array {A} (self : encoder) (t : tensor A) : A :=
  match variant self with
  | TF => numpy t
  | Torch => numpy (if on_gpu self then cpu t else t)
  end.

(** The [for c_idx in range(data.shape[0])] loop of [encode], with its
    two accumulators. *)
Fixpoint tokenize_loop (self : encoder) (data : list string)
  (token_ids_batch mask_ids_batch : int_matrix) : M (int_matrix * int_matrix) :=
  match data with
  | [] => ret (token_ids_batch, mask_ids_batch)
  | text :: rest =>
      tk <- getattr "tokenizer" (tokenizer self) ;;
      emit (Tokenize text (max_length self)) ;;;
      let token_ids := tokenizer_encode env tk text (max_length self) in
      let mask_ids := mask_of (pad_token_id env tk) token_ids in
      tokenize_loop self rest (token_ids_batch ++ [token_ids])
                    (mask_ids_batch ++ [mask_ids])
  end.

(** [encode], without the [batching] and [as_ndarray] decorators.  The
    [_sess_func] context only switches gradient recording off. *)
Definition encode (self : encoder) (data : list string) : M tensor2 :=
  batches <- tokenize_loop self data [] [] ;;
  let '(token_ids_batch, mask_ids_batch) := batches in
  token_ids_batch <- array2tensor self token_ids_batch ;;
  mask_ids_batch <- array2tensor self mask_ids_batch ;;
  mdl <- getattr "model" (model self) ;;
  emit (Infer (t_data token_ids_batch) (t_data mask_ids_batch)) ;;;
  let '(seq_output, extra_output) :=
    model_call env mdl token_ids_batch mask_ids_batch in
  let _mask_ids_batch := tensor2array self mask_ids_batch in
  let _seq_output := tensor2array self seq_output in
  if (pooling_strategy self =? "cls")%string then
    if in_tuple (model_name self) native_pooled_models then
      match extra_output with
      | pooled :: _ => ret (tensor2array self pooled)
      | [] => raise (Exn IndexError [])
      end
    else
      pos <- getattr "cls_pos" (cls_pos self) ;;
      lift (reduce_cls _seq_output _mask_ids_batch pos)
  else if (pooling_strategy self =? "mean")%string then
    lift (reduce_mean _seq_output _mask_ids_batch)
  else if (pooling_strategy self =? "max")%string then
    lift (reduce_max _seq_output _mask_ids_batch)
  else if (pooling_strategy self =? "min")%string then
    lift (reduce_min _seq_output _mask_ids_batch)
  else
    emit (LogError ("pooling strategy not found: " ++ pooling_strategy self)%string) ;;;
    raise (Exn NotImplementedError []).

End Encoder.

Arguments encode env self data : simpl never.

(** ** Vocabulary of the statements *)

(** The tokenizer, model and tensor constructor of an initialised
    encoder. *)
Definition backend_of (self : encoder)
  : option (PreTrainedTokenizer * PreTrainedModel * tensor_func) :=
  match tokenizer self, model self, _tensor_func self with
  | Some tk, Some mdl, Some f => Some (tk, mdl, f)
  | _, _, _ => None
  end.

Definition batch_token_ids (env : environment) (tk : PreTrainedTokenizer)
  (n : Z) (data : list string) : int_matrix :=
  map (fun text => tokenizer_encode env tk text n) data.

Definition batch_mask (env : environment) (tk : PreTrainedTokenizer)
  (n : Z) (data : list string) : int_matrix :=
  map (mask_of (pad_token_id env tk)) (batch_token_ids env tk n data).

(** The tensor [array2tensor] builds once [_tensor_func] is [f]. *)
Definition backend_tensor {A} (self : encoder) (f : tensor_func) (array : A)
  : tensor A :=
  match variant self with
  | TF => apply_tensor_func f array
  | Torch =>
      if on_gpu self then cuda (apply_tensor_func f array)
      else apply_tensor_func f array
  end.

(** What the forward pass returns on the batch built from [data]. *)
Definition inference (env : environment) (self : encoder)
  (tk : PreTrainedTokenizer) (mdl : PreTrainedModel) (f : tensor_func)
  (data : list string) : tensor tensor3 * list (tensor tensor2) :=
  model_call env mdl
    (backend_tensor self f (batch_token_ids env tk (max_length self) data))
    (backend_tensor self f (batch_mask env tk (max_length self) data)).

Definition sequence_output (env : environment) (self : encoder)
  (tk : PreTrainedTokenizer) (mdl : PreTrainedModel) (f : tensor_func)
  (data : list string) : tensor3 :=
  t_data (fst (inference env self tk mdl f data)).

Definition extra_outputs (env : environment) (self : encoder)
  (tk : PreTrainedTokenizer) (mdl : PreTrainedModel) (f : tensor_func)
  (data : list string) : list tensor2 :=
  map t_data (snd (inference env self tk mdl f data)).

Definition recognized_strategies : list string :=
  [ "cls"; "mean"; "max"; "min" ]%string.

(** [seq[j][d]] of one row. *)
Definition entry (row_s : list vec) (j d : nat) : option Q :=
  match nth_error row_s j with
  | Some v => nth_error v d
  | None => None
  end.

(** [q] is the maximum (minimum) of component [d] over the positions
    whose mask entry is 1: it is attained at one of them and bounds all
    of them. *)
Definition is_max_over (row_s : list vec) (row_m : list Z) (d : nat) (q : Q)
  : Prop :=
  (exists j, nth_error row_m j = Some 1 /\ entry row_s j d = Some q) /\
  (forall j x, nth_error row_m j = Some 1 -> entry row_s j d = Some x ->
               (x <= q)%Q).

Definition is_min_over (row_s : list vec) (row_m : list Z) (d : nat) (q : Q)
  : Prop :=
  (exists j, nth_error row_m j = Some 1 /\ entry row_s j d = Some q) /\
  (forall j x, nth_error row_m j = Some 1 -> entry row_s j d = Some x ->
               (q <= x)%Q).

(** Two rows that carry the same vectors wherever the mask is 1. *)
Definition agree_on_real (row_m : list Z) (row_s row_s' : list vec) : Prop :=
  List.length row_s = List.length row_s' /\
  forall j, nth_error row_m j = Some 1 -> nth_error row_s j = nth_error row_s' j.

(** Sum of component [d] over the positions whose mask entry is 1, and
    the number of such positions, by recursion on the position. *)
Fixpoint masked_sum (row_s : list vec) (row_m : list Z) (d : nat) : Q :=
  match row_s, row_m with
  | v :: row_s', m :: row_m' =>
      ((if m =? 1 then nth d v 0%Q else 0%Q) + masked_sum row_s' row_m' d)%Q
  | _, _ => 0%Q
  end.

Definition real_count (row_m : list Z) : nat := count_occ Z.eq_dec row_m 1.

(** [j] is the highest index of [row_m] holding a 1. *)
Definition is_last_real (row_m : list Z) (j : nat) : Prop :=
  nth_error row_m j = Some 1 /\
  forall k, nth_error row_m k = Some 1 -> (k <= j)%nat.

(** The token-batch invariant: equal shapes, and at every position the
    mask is 1 exactly when the token is not the pad token (and is 0
    otherwise). *)
Definition token_batch_invariant (pad : option Z) (ids mask : int_matrix)
  : Prop :=
  Forall2 (Forall2 (fun t m => (m = 1 <-> Some t <> pad) /\ (m = 0 \/ m = 1)))
          ids mask.

Definition enumerates_supported (msg : string) : Prop :=
  forall name, In name supported_models -> str_in name msg = true.

Definition is_tokenizer_event (ev : event) : bool :=
  match ev with
  | LoadTokenizer _ _ | Tokenize _ _ => true
  | _ => false
  end.

(** ** A small concrete environment

    One token per character (its code), truncated to [max_length] and
    right-padded with token 0; each token [t] has hidden state
    [[t; -t]], and the single extra output is the row sum. *)
Definition toy_encode (tk : PreTrainedTokenizer) (text : string) (n : Z)
  : list Z :=
  let raw := map (fun c => Z.of_nat (nat_of_ascii c)) (list_ascii_of_string text) in
  let L := Z.to_nat n in
  firstn L raw ++ repeat 0 (L - List.length raw)%nat.

Definition toy_model (mdl : PreTrainedModel) (ids mask : tensor int_matrix)
  : tensor tensor3 * list (tensor tensor2) :=
  (Tensor (map (map (fun t => [inject_Z t; inject_Z (- t)])) (t_data ids))
          (t_device ids),
   [Tensor (map (fun row => [inject_Z (fold_right Z.add 0 row)]) (t_data ids))
           (t_device ids)]).

Definition toy_env : environment :=
  MkEnv (fun _ => false) (fun p => p) toy_encode (fun _ => Some 0)
        (fun _ => 100%nat) toy_model.

(** The encoder the toy environment initialises for a model name and a
    pooling strategy, with [max_length = 3]; an encoder with nothing
    loaded when initialisation fails. *)
Definition toy_encoder (v : framework) (name strategy : string) : encoder :=
  let self := __init__ v false name strategy 3 "transformer" in
  match outcome (post_init toy_env self) with
  | Ok self' => self'
  | Raised _ => self
  end.

(** The [if]/[elif] chain of [encode] as a function of the arrays it
    reads; [encode_run] below shows that [encode] is the tokenizer loop,
    the forward pass and then this chain. *)
Definition pooling_dispatch (self : encoder) (seq : tensor3)
  (extra : list tensor2) (mask : int_matrix) : M tensor2 :=
  (if (pooling_strategy self =? "cls")%string then
     if in_tuple (model_name self) native_pooled_models then
       match extra with
       | pooled :: _ => ret pooled
       | [] => raise (Exn IndexError [])
       end
     else
       pos <- getattr "cls_pos" (cls_pos self) ;;
       lift (reduce_cls seq mask pos)
   else if (pooling_strategy self =? "mean")%string then
     lift (reduce_mean seq mask)
   else if (pooling_strategy self =? "max")%string then
     lift (reduce_max seq mask)
   else if (pooling_strategy self =? "min")%string then
     lift (reduce_min seq mask)
   else
     emit (LogError ("pooling strategy not found: " ++ pooling_strategy self)%string) ;;;
     raise (Exn NotImplementedError []))%py.

Definition recognized (strategy : string) : bool :=
  in_tuple strategy recognized_strategies.

Definition succeeds {A} (m : M A) : bool :=
  match outcome m with
  | Ok _ => true
  | Raised _ => false
  end.

(** The same object with another [pooling_strategy]. *)
Definition with_pooling (self : encoder) (strategy : string) : encoder :=
  MkEncoder (variant self) (on_gpu self) (model_name self) strategy
            (max_length self) (raw_model_path self) (_tmp_model_path self)
            (tokenizer self) (cls_pos self) (model self) (_tensor_func self).

Definition map_outcome {A B} (g : A -> B) (m : M A) : M B :=
  match m with
  | (t, Ok a) => (t, Ok (g a))
  | (t, Raised e) => (t, Raised e)
  end.

(** What [_init_tokenizer] leaves in [cls_pos], as a function of the
    model name, and the class table of each variant. *)
Definition cls_pos_after_init (name : string) : option cls_position :=
  if in_tuple name head_models then Some head
  else if str_in name "xlnet-base-cased" then Some tail
  else None.

Definition model_dict_of (v : framework) : dict ModelClass :=
  match v with
  | TF => tf_model_dict
  | Torch => torch_model_dict
  end.

(** Component [d] of each vector of a list. *)
Definition column (d : nat) (vs : list vec) : list Q :=
  map (fun w => nth d w 0%Q) vs.

(** A strategy whose reduction needs a real token in every row: mean,
    max, min, and cls when it extracts the tail position. *)
Definition needs_real_token (self : encoder) : bool :=
  in_tuple (pooling_strategy self) [ "mean"; "max"; "min" ]%string ||
  ((pooling_strategy self =? "cls")%string &&
   negb (in_tuple (model_name self) native_pooled_models) &&
   match cls_pos self with
   | Some tail => true
   | _ => false
   end).

Arguments dict_get {V} d k : simpl never.
Arguments in_tuple x t : simpl never.
Arguments str_in sub s : simpl never.

(** ** Snapshots

    [__getstate__] writes the backend to the model folder.  The file
    system is the existence predicate of the environment, passed through
    explicitly; [os.mkdir] and the two [save_pretrained] calls are
    recorded as events and are taken to succeed.  The state returned by
    the parent class is a parameter. *)

Inductive snapshot_event : Type :=
| LogInfo (msg : string)
| Mkdir (path : string)
| SaveModel (m : PreTrainedModel) (path : string)
| SaveTokenizer (tk : PreTrainedTokenizer) (path : string).

(** The environment after the directory [p] has been created. *)
Definition with_path (env : environment) (p : string) : environment :=
  MkEnv (fun q => String.eqb q p || path_exists env q)
        (get_file_from_workspace env) (tokenizer_encode env)
        (pad_token_id env) (tokenizer_len env) (model_call env).

Definition create_folder_message (path : string) : string :=
  ("create folder for saving transformer models: " ++ path)%string.

Definition __getstate__ {S : Type} (super_getstate : encoder -> S)
  (env : environment) (self : encoder)
  : list snapshot_event * environment * result S :=
  let '(t, env') :=
    if negb (path_exists env (model_abspath env self)) then
      ([ LogInfo (create_folder_message (model_abspath env self));
         Mkdir (model_abspath env self) ],
       with_path env (model_abspath env self))
    else ([], env) in
  match model self with
  | None => (t, env', Raised (Exn AttributeError ["model"%string]))
  | Some m =>
      match tokenizer self with
      | None =>
          (t ++ [SaveModel m (model_abspath env' self)], env',
           Raised (Exn AttributeError ["tokenizer"%string]))
      | Some tk =>
          (t ++ [ SaveModel m (model_abspath env' self);
                  SaveTokenizer tk (model_abspath env' self) ],
           env', Ok (super_getstate self))
      end
  end.

(** ** Further vocabulary *)

(** The same object with another content of [cls_pos]. *)
Definition with_cls_pos (self : encoder) (pos : option cls_position) : encoder :=
  MkEncoder (variant self) (on_gpu self) (model_name self)
            (pooling_strategy self) (max_length self) (raw_model_path self)
            (_tmp_model_path self) (tokenizer self) pos (model self)
            (_tensor_func self).

(** The name or path that [from_pretrained] is given: the model folder
    of the workspace when it exists, the model name otherwise. *)
Definition load_source (env : environment) (name path : string) : string :=
  if path_exists env (get_file_from_workspace env path)
  then get_file_from_workspace env path
  else name.

Definition tensor_func_of (v : framework) : tensor_func :=
  match v with
  | TF => tf_constant
  | Torch => torch_tensor
  end.

(** The tokenizer and the model an initialisation leaves in [self]. *)
Definition tokenizer_after_init (env : environment) (name path : string)
  (tc : TokenizerClass) : PreTrainedTokenizer :=
  MkTokenizer tc (load_source env name path) (Some "right"%string)
              (if in_tuple name custom_pad_models then Some "<PAD>"%string
               else None).

Definition model_after_init (env : environment) (name path : string)
  (tc : TokenizerClass) (mc : ModelClass) : PreTrainedModel :=
  MkModel mc (load_source env name path)
          (if in_tuple name resize_models
           then Some (tokenizer_len env (tokenizer_after_init env name path tc))
           else None).

Definition is_log_event (ev : event) : bool :=
  match ev with
  | LogError _ => true
  | _ => false
  end.

(** Two variations of the small environment: a tokenizer without pad
    token id, and a forward pass that returns the sequence output only. *)
Definition toy_env_no_pad : environment :=
  MkEnv (fun _ => false) (fun p => p) toy_encode (fun _ => None)
        (fun _ => 100%nat) toy_model.

Definition toy_env_bare : environment :=
  MkEnv (fun _ => false) (fun p => p) toy_encode (fun _ => Some 0)
        (fun _ => 100%nat)
        (fun mdl ids mask => (fst (toy_model mdl ids mask), [])).

(** * Properties *)

(** ** The monad and the shape of a run of [encode] *)

Lemma bind_ret {A B} (a : A) (k : A -> M B) : bind (ret a) k = k a.
Proof. unfold bind, ret. destruct (k a) as [t r]. reflexivity. Qed.

Lemma bind_lift_ok {A} (m : M A) : bind m ret = m.
Proof.
  destruct m as [t [a|e]]; simpl; [|reflexivity].
  now rewrite app_nil_r.
Qed.

Lemma tensor2array_data {A} (self : encoder) (t : tensor A) :
  tensor2array self t = t_data t.
Proof.
  unfold tensor2array, numpy, cpu.
  destruct (variant self), (on_gpu self); reflexivity.
Qed.

Lemma backend_tensor_data {A} (self : encoder) (f : tensor_func) (a : A) :
  t_data (backend_tensor self f a) = a.
Proof.
  unfold backend_tensor, cuda, apply_tensor_func.
  destruct (variant self), (on_gpu self), f; reflexivity.
Qed.

Lemma array2tensor_run {A} (self : encoder) (f : tensor_func) (a : A) :
  _tensor_func self = Some f ->
  array2tensor self a = ret (backend_tensor self f a).
Proof.
  intros Hf. unfold array2tensor, backend_tensor. rewrite Hf. simpl getattr.
  rewrite bind_ret. destruct (variant self); reflexivity.
Qed.

Lemma backend_of_inv (self : encoder) tk mdl f :
  backend_of self = Some (tk, mdl, f) ->
  tokenizer self = Some tk /\ model self = Some mdl /\ _tensor_func self = Some f.
Proof.
  unfold backend_of.
  destruct (tokenizer self), (model self), (_tensor_func self);
    intros H; inversion H; subst; auto.
Qed.

Lemma tokenize_loop_run (env : environment) (self : encoder) tk data a b :
  tokenizer self = Some tk ->
  tokenize_loop env self data a b =
    (map (fun text => Tokenize text (max_length self)) data,
     Ok (a ++ batch_token_ids env tk (max_length self) data,
         b ++ batch_mask env tk (max_length self) data)).
Proof.
  intros Htk. revert a b.
  induction data as [|text rest IH]; intros a b.
  - simpl. unfold ret. now rewrite !app_nil_r.
  - simpl. rewrite Htk. simpl. rewrite IH. simpl.
    unfold batch_mask. simpl. now rewrite <- !app_assoc.
Qed.

(** A run of [encode] on an initialised encoder: one tokenizer call per
    string, one forward pass on the batch, then the pooling chain. *)
Lemma encode_run (env : environment) (self : encoder) tk mdl f data :
  backend_of self = Some (tk, mdl, f) ->
  encode env self data =
    let d := pooling_dispatch self
               (sequence_output env self tk mdl f data)
               (extra_outputs env self tk mdl f data)
               (batch_mask env tk (max_length self) data) in
    (map (fun text => Tokenize text (max_length self)) data
       ++ Infer (batch_token_ids env tk (max_length self) data)
                (batch_mask env tk (max_length self) data) :: trace d,
     outcome d).
Proof.
  intros Hb. destruct (backend_of_inv _ _ _ _ Hb) as (Htk & Hm & Hf).
  unfold encode. rewrite (tokenize_loop_run env self tk data [] [] Htk).
  simpl app.
  unfold sequence_output, extra_outputs, inference.
  set (ids := batch_token_ids env tk (max_length self) data).
  set (mask := batch_mask env tk (max_length self) data).
  unfold bind at 1.
  rewrite !(array2tensor_run self f _ Hf), !bind_ret, Hm.
  simpl getattr. rewrite bind_ret.
  rewrite !backend_tensor_data.
  destruct (model_call env mdl (backend_tensor self f ids)
                       (backend_tensor self f mask)) as [seq extra] eqn:Hcall.
  simpl fst; simpl snd.
  rewrite !tensor2array_data, ?backend_tensor_data.
  unfold pooling_dispatch.
  set (T := map (fun text => Tokenize text (max_length self)) data).
  assert (Hgen : forall X : M tensor2,
    (let (t', r) := bind (emit (Infer ids mask)) (fun _ => X) in (T ++ t', r))
    = (T ++ Infer ids mask :: trace X, outcome X)).
  { intros [t r]. reflexivity. }
  destruct (pooling_strategy self =? "cls")%string.
  - destruct (in_tuple (model_name self) native_pooled_models).
    + destruct extra as [|pooled rest]; simpl map.
      * apply Hgen.
      * rewrite tensor2array_data. apply Hgen.
    + apply Hgen.
  - apply Hgen.
Qed.

(** ** Errors of the reduction engine *)

Lemma map_rows_raised {A B C} (f : A -> B -> result C) xs ys e :
  map_rows f xs ys = Raised e ->
  exists x y, In x xs /\ In y ys /\ f x y = Raised e.
Proof.
  revert ys. induction xs as [|x xs IH]; intros [|y ys] H; simpl in H;
    try discriminate.
  destruct (f x y) as [c|e'] eqn:Hf.
  - destruct (map_rows f xs ys) as [cs|e''] eqn:Hr; [discriminate|].
    inversion H; subst.
    destruct (IH ys Hr) as (x' & y' & Hx & Hy & Hxy).
    exists x', y'. simpl. auto.
  - inversion H; subst. exists x, y. simpl. auto.
Qed.

Lemma reduce_row_with_raised f row_s row_m e :
  reduce_row_with f row_s row_m = Raised e -> e = Exn EmptySequenceError [].
Proof.
  unfold reduce_row_with, empty_sequence.
  destruct (selected row_s row_m); intros H; inversion H; reflexivity.
Qed.

Lemma reduce_mean_row_raised row_s row_m e :
  reduce_mean_row row_s row_m = Raised e -> e = Exn EmptySequenceError [].
Proof.
  unfold reduce_mean_row, empty_sequence.
  destruct (selected row_s row_m); intros H; inversion H; reflexivity.
Qed.

Lemma reduce_cls_row_raised pos row_s row_m e :
  reduce_cls_row pos row_s row_m = Raised e ->
  e = Exn EmptySequenceError [] \/ e = Exn IndexError [].
Proof.
  unfold reduce_cls_row, empty_sequence, index_error.
  destruct pos.
  - destruct row_s; intros H; inversion H; auto.
  - destruct (last_real_index row_m) as [j|]; [|intros H; inversion H; auto].
    destruct (nth_error row_s j); intros H; inversion H; auto.
Qed.

(** ** Unrecognised pooling strategies *)

Lemma recognized_false_tests (p : string) :
  recognized p = false ->
  (p =? "cls")%string = false /\ (p =? "mean")%string = false /\
  (p =? "max")%string = false /\ (p =? "min")%string = false.
Proof.
  unfold recognized, in_tuple, recognized_strategies. simpl.
  rewrite !orb_false_iff. tauto.
Qed.

Lemma dispatch_unrecognized (self : encoder) seq extra mask :
  recognized (pooling_strategy self) = false ->
  pooling_dispatch self seq extra mask =
    ([LogError ("pooling strategy not found: " ++ pooling_strategy self)%string],
     Raised (Exn NotImplementedError [])).
Proof.
  intros H. destruct (recognized_false_tests _ H) as (H1 & H2 & H3 & H4).
  unfold pooling_dispatch. rewrite H1, H2, H3, H4. reflexivity.
Qed.

Lemma dispatch_recognized_error (self : encoder) seq extra mask e :
  recognized (pooling_strategy self) = true ->
  outcome (pooling_dispatch self seq extra mask) = Raised e ->
  exn_cls e <> NotImplementedError.
Proof.
  intros Hrec. unfold pooling_dispatch.
  destruct (pooling_strategy self =? "cls")%string eqn:Hc.
  - destruct (in_tuple (model_name self) native_pooled_models).
    + destruct extra; simpl; intros H; inversion H; subst; discriminate.
    + destruct (cls_pos self) as [pos|]; simpl.
      * destruct (reduce_cls seq mask pos) as [out|e'] eqn:Hr; simpl;
          intros H; inversion H; subst.
        destruct (map_rows_raised _ _ _ _ Hr) as (x & y & _ & _ & Hxy).
        destruct (reduce_cls_row_raised _ _ _ _ Hxy); subst; discriminate.
      * intros H; inversion H; subst; discriminate.
  - destruct (pooling_strategy self =? "mean")%string eqn:Hm.
    { simpl. intros Hr.
      destruct (map_rows_raised _ _ _ _ Hr) as (x & y & _ & _ & Hxy).
      rewrite (reduce_mean_row_raised _ _ _ Hxy). discriminate. }
    destruct (pooling_strategy self =? "max")%string eqn:Hx.
    { simpl. intros Hr.
      destruct (map_rows_raised _ _ _ _ Hr) as (x & y & _ & _ & Hxy).
      rewrite (reduce_row_with_raised _ _ _ _ Hxy). discriminate. }
    destruct (pooling_strategy self =? "min")%string eqn:Hn.
    { simpl. intros Hr.
      destruct (map_rows_raised _ _ _ _ Hr) as (x & y & _ & _ & Hxy).
      rewrite (reduce_row_with_raised _ _ _ _ Hxy). discriminate. }
    exfalso. revert Hrec. unfold recognized, in_tuple, recognized_strategies.
    simpl. rewrite Hc, Hm, Hx, Hn. discriminate.
Qed.

(** C7.  On an initialised encoder, a pooling strategy outside
    cls/mean/max/min makes [encode] raise the unsupported-pooling error
    ([NotImplementedError]) to its caller; with one of the four
    strategies [encode] never raises that error. *)
Theorem unsupported_pooling_error (env : environment) (self : encoder)
  tk mdl f data :
  backend_of self = Some (tk, mdl, f) ->
  (recognized (pooling_strategy self) = false ->
   outcome (encode env self data) = Raised (Exn UnsupportedPoolingError []))
  /\
  (recognized (pooling_strategy self) = true ->
   forall e, outcome (encode env self data) = Raised e ->
             exn_cls e <> UnsupportedPoolingError).
Proof.
  intros Hb. rewrite (encode_run env self tk mdl f data Hb). cbv zeta.
  split.
  - intros Hrec. rewrite (dispatch_unrecognized _ _ _ _ Hrec). reflexivity.
  - intros Hrec e He. unfold outcome at 1 in He. simpl snd in He.
    eapply dispatch_recognized_error; eauto.
Qed.

Lemma unsupported_pooling_error_witness :
  outcome (encode toy_env (toy_encoder Torch "bert-base-uncased" "avg")
                  ["ab"; "c"]%string)
  = Raised (Exn UnsupportedPoolingError []).
Proof.
  eapply (proj1 (unsupported_pooling_error toy_env
                   (toy_encoder Torch "bert-base-uncased" "avg")
                   _ _ _ ["ab"; "c"]%string eq_refl)).
  reflexivity.
Defined.

(** ** Initialisation does not look at the pooling strategy *)

Lemma init_tokenizer_with_pooling (env : environment) (self : encoder) p :
  _init_tokenizer env (with_pooling self p) =
  map_outcome (fun s => with_pooling s p) (_init_tokenizer env self).
Proof.
  destruct self.
  unfold _init_tokenizer, with_pooling, model_abspath, dict_index,
    set_tmp_model_path, dict_contains.
  simpl.
  destruct (path_exists env (get_file_from_workspace env raw_model_path0)); simpl;
  destruct (dict_get tokenizer_dict model_name0); simpl; try reflexivity;
  unfold set_tokenizer, set_cls_pos; simpl;
  destruct (in_tuple model_name0 head_models); simpl;
  destruct (str_in model_name0 "xlnet-base-cased"); simpl;
  destruct (in_tuple model_name0 custom_pad_models); simpl; reflexivity.
Qed.

Lemma init_model_with_pooling (env : environment) (self : encoder) p :
  _init_model env (with_pooling self p) =
  map_outcome (fun s => with_pooling s p) (_init_model env self).
Proof.
  destruct self. unfold _init_model, TransformerTFEncoder_init_model, TransformerTorchEncoder_init_model, init_model_with, with_pooling, dict_index. simpl.
  destruct variant0; simpl.
  - destruct (dict_get tf_model_dict model_name0); simpl; [|reflexivity].
    destruct _tmp_model_path0; simpl; [|reflexivity].
    destruct (in_tuple model_name0 resize_models); simpl; [|reflexivity].
    destruct tokenizer0; simpl; reflexivity.
  - destruct (dict_get torch_model_dict model_name0); simpl; [|reflexivity].
    destruct _tmp_model_path0; simpl; [|reflexivity].
    destruct (in_tuple model_name0 resize_models); simpl; [|reflexivity].
    destruct tokenizer0; simpl; reflexivity.
Qed.

Lemma post_init_with_pooling (env : environment) (self : encoder) p :
  post_init env (with_pooling self p) =
  map_outcome (fun s => with_pooling s p) (post_init env self).
Proof.
  unfold post_init. rewrite init_tokenizer_with_pooling.
  destruct (_init_tokenizer env self) as [t [s|e]]; simpl; [|reflexivity].
  rewrite init_model_with_pooling.
  destruct (_init_model env s) as [t' [s'|e']]; reflexivity.
Qed.

(** C10.  With a pooling strategy outside the four recognised ones, a
    run of [encode] on an initialised encoder tokenizes every string of
    the batch, performs the forward pass on the whole batch, and only
    then logs the unknown strategy and raises; and [post_init] behaves
    with that strategy exactly as with any other one, so nothing
    validates it before inference. *)
Theorem unrecognized_pooling_found_after_inference (env : environment)
  (self : encoder) tk mdl f data :
  backend_of self = Some (tk, mdl, f) ->
  recognized (pooling_strategy self) = false ->
  encode env self data =
    (map (fun text => Tokenize text (max_length self)) data ++
       [ Infer (batch_token_ids env tk (max_length self) data)
               (batch_mask env tk (max_length self) data);
         LogError ("pooling strategy not found: " ++ pooling_strategy self)%string ],
     Raised (Exn NotImplementedError []))
  /\
  (forall self0 : encoder,
     post_init env (with_pooling self0 (pooling_strategy self)) =
     map_outcome (fun s => with_pooling s (pooling_strategy self))
                 (post_init env self0)).
Proof.
  intros Hb Hrec. split.
  - rewrite (encode_run env self tk mdl f data Hb). cbv zeta.
    rewrite (dispatch_unrecognized _ _ _ _ Hrec). reflexivity.
  - intros self0. apply post_init_with_pooling.
Qed.

Lemma unrecognized_pooling_found_after_inference_witness :
  encode toy_env (toy_encoder TF "gpt2" "sum") ["hi"; "you"]%string =
    ([ Tokenize "hi" 3; Tokenize "you" 3;
       Infer [[104; 105; 0]; [121; 111; 117]] [[1; 1; 0]; [1; 1; 1]];
       LogError "pooling strategy not found: sum" ],
     Raised (Exn NotImplementedError [])).
Proof.
  exact (proj1 (unrecognized_pooling_found_after_inference toy_env
                  (toy_encoder TF "gpt2" "sum") _ _ _ ["hi"; "you"]%string
                  eq_refl eq_refl)).
Defined.

(** ** The token batch *)

Lemma mask_of_invariant (pad : option Z) (token_ids : list Z) :
  Forall2 (fun t m => (m = 1 <-> Some t <> pad) /\ (m = 0 \/ m = 1))
          token_ids (mask_of pad token_ids).
Proof.
  induction token_ids as [|t rest IH]; simpl; constructor; auto.
  unfold py_eq. destruct pad as [p|].
  - destruct (Z.eqb_spec t p) as [->|Hne].
    + split; [|now left]. split; [discriminate|]. intros H. now elim H.
    + split; [|now right]. split; [|reflexivity].
      intros _ H. inversion H. contradiction.
  - split; [|now right]. split; [discriminate|reflexivity].
Qed.

Lemma batch_invariant (env : environment) tk n data :
  token_batch_invariant (pad_token_id env tk)
    (batch_token_ids env tk n data) (batch_mask env tk n data).
Proof.
  unfold token_batch_invariant, batch_mask.
  induction (batch_token_ids env tk n data) as [|row rest IH]; simpl;
    constructor; auto using mask_of_invariant.
Qed.

Lemma dispatch_events_are_logs (self : encoder) seq extra mask ev :
  In ev (trace (pooling_dispatch self seq extra mask)) ->
  exists msg, ev = LogError msg.
Proof.
  unfold pooling_dispatch.
  destruct (pooling_strategy self =? "cls")%string.
  - destruct (in_tuple (model_name self) native_pooled_models).
    + destruct extra; simpl; tauto.
    + destruct (cls_pos self) as [pos|]; simpl; [|tauto].
      destruct (reduce_cls seq mask pos); simpl; tauto.
  - destruct (pooling_strategy self =? "mean")%string; [simpl; tauto|].
    destruct (pooling_strategy self =? "max")%string; [simpl; tauto|].
    destruct (pooling_strategy self =? "min")%string; [simpl; tauto|].
    simpl. intros [<-|[]]. eauto.
Qed.

(** C9.  On an initialised encoder, the token batch that [encode]
    builds has one row per input string, in input order: row [i] of
    [token_ids] is the tokenizer's output for string [i] at
    [max_length], and row [i] of the mask is derived from that row by
    comparing each token with the tokenizer's pad token id.  This batch,
    and no other, is what the forward pass of the run receives, and it
    satisfies the invariant at every position: the two matrices have the
    same shape and a mask entry is 1 exactly when the token at that
    position differs from the pad token id (0 otherwise). *)
Theorem encode_token_batch_invariant (env : environment) (self : encoder)
  tk mdl f data :
  backend_of self = Some (tk, mdl, f) ->
  let ids :=
    map (fun text => tokenizer_encode env tk text (max_length self)) data in
  let mask := map (mask_of (pad_token_id env tk)) ids in
  outcome (tokenize_loop env self data [] []) = Ok (ids, mask) /\
  (forall ids' mask',
      In (Infer ids' mask') (trace (encode env self data)) <->
      ids' = ids /\ mask' = mask) /\
  List.length ids = List.length data /\
  List.length mask = List.length data /\
  (forall i text,
      nth_error data i = Some text ->
      nth_error ids i = Some (tokenizer_encode env tk text (max_length self)) /\
      nth_error mask i =
        Some (mask_of (pad_token_id env tk)
                      (tokenizer_encode env tk text (max_length self)))) /\
  token_batch_invariant (pad_token_id env tk) ids mask.
Proof.
  intros Hb ids mask.
  destruct (backend_of_inv _ _ _ _ Hb) as (Htk & _ & _).
  assert (Hids : ids = batch_token_ids env tk (max_length self) data)
    by reflexivity.
  assert (Hmask : mask = batch_mask env tk (max_length self) data)
    by reflexivity.
  split; [|split; [|split; [|split; [|split]]]].
  - rewrite (tokenize_loop_run env self tk data [] [] Htk), Hids, Hmask.
    reflexivity.
  - intros ids' mask'.
    rewrite (encode_run env self tk mdl f data Hb). cbv zeta.
    unfold trace at 1. simpl fst. rewrite <- Hids, <- Hmask. split.
    + intros Hin. apply in_app_or in Hin. destruct Hin as [Hin|[Heq|Hin]].
      * apply in_map_iff in Hin. destruct Hin as (text & E & _). discriminate.
      * inversion Heq. auto.
      * apply dispatch_events_are_logs in Hin. destruct Hin as (msg & E).
        discriminate.
    + intros [-> ->]. apply in_or_app. right. now left.
  - unfold ids. apply length_map.
  - unfold mask, ids. now rewrite !length_map.
  - intros i text Hi. unfold mask, ids. rewrite map_map.
    split.
    + exact (map_nth_error
               (fun text => tokenizer_encode env tk text (max_length self))
               i data Hi).
    + exact (map_nth_error
               (fun text => mask_of (pad_token_id env tk)
                  (tokenizer_encode env tk text (max_length self)))
               i data Hi).
  - rewrite Hmask, Hids. apply batch_invariant.
Qed.

Lemma encode_token_batch_invariant_witness :
  outcome (tokenize_loop toy_env (toy_encoder Torch "roberta-base" "mean")
                         ["a"; "xyz"]%string [] [])
  = Ok ([[97; 0; 0]; [120; 121; 122]], [[1; 0; 0]; [1; 1; 1]]) /\
  In (Infer [[97; 0; 0]; [120; 121; 122]] [[1; 0; 0]; [1; 1; 1]])
     (trace (encode toy_env (toy_encoder Torch "roberta-base" "mean")
                    ["a"; "xyz"]%string)) /\
  token_batch_invariant (Some 0) [[97; 0; 0]; [120; 121; 122]]
                        [[1; 0; 0]; [1; 1; 1]].
Proof.
  destruct (encode_token_batch_invariant toy_env
              (toy_encoder Torch "roberta-base" "mean") _ _ _
              ["a"; "xyz"]%string eq_refl)
    as (Hloop & Hinfer & _ & _ & _ & Hinv).
  split; [exact Hloop|]. split; [|exact Hinv].
  apply (proj2 (Hinfer _ _)). split; reflexivity.
Defined.

(** ** Initialisation over the registry *)

Lemma init_tokenizer_ok (env : environment) v gpu name p ml path tc :
  dict_get tokenizer_dict name = Some tc ->
  exists self',
    outcome (_init_tokenizer env (__init__ v gpu name p ml path)) = Ok self' /\
    cls_pos self' = cls_pos_after_init name.
Proof.
  intros Htc.
  unfold _init_tokenizer, dict_contains, dict_index, model_abspath, __init__,
    cls_pos_after_init.
  simpl. rewrite Htc. simpl.
  destruct (path_exists env (get_file_from_workspace env path)); simpl;
    rewrite Htc; simpl;
    destruct (in_tuple name head_models); simpl;
    destruct (str_in name "xlnet-base-cased"); simpl;
    destruct (in_tuple name custom_pad_models); simpl;
    eexists; split; reflexivity.
Qed.

Lemma post_init_ok (env : environment) v gpu name p ml path tc mc :
  dict_get tokenizer_dict name = Some tc ->
  dict_get (model_dict_of v) name = Some mc ->
  exists self' tk mdl f,
    outcome (post_init env (__init__ v gpu name p ml path)) = Ok self' /\
    backend_of self' = Some (tk, mdl, f) /\
    model_name self' = name /\
    pooling_strategy self' = p /\
    cls_pos self' = cls_pos_after_init name.
Proof.
  intros Htc Hmc.
  unfold post_init, _init_tokenizer, dict_contains, dict_index, model_abspath,
    __init__, cls_pos_after_init.
  simpl. rewrite Htc. simpl.
  destruct (path_exists env (get_file_from_workspace env path)); simpl;
    rewrite Htc; simpl;
    destruct (in_tuple name head_models); simpl;
    destruct (str_in name "xlnet-base-cased"); simpl;
    destruct (in_tuple name custom_pad_models); simpl;
    unfold _init_model, TransformerTFEncoder_init_model,
      TransformerTorchEncoder_init_model, init_model_with, dict_index;
    destruct v; simpl in Hmc |- *; rewrite Hmc; simpl;
    destruct (in_tuple name resize_models); simpl;
    do 4 eexists; repeat split; reflexivity.
Qed.

Lemma dispatch_cls_unregistered (self : encoder) seq extra mask :
  pooling_strategy self = "cls"%string ->
  in_tuple (model_name self) native_pooled_models = false ->
  cls_pos self = None ->
  pooling_dispatch self seq extra mask =
    ([], Raised (Exn AttributeError ["cls_pos"%string])).
Proof.
  intros Hp Hn Hc. unfold pooling_dispatch. rewrite Hp, Hn, Hc. reflexivity.
Qed.

Lemma encode_cls_unregistered (env : environment) v gpu name ml path tc mc :
  dict_get tokenizer_dict name = Some tc ->
  dict_get (model_dict_of v) name = Some mc ->
  in_tuple name native_pooled_models = false ->
  cls_pos_after_init name = None ->
  exists self',
    outcome (post_init env (__init__ v gpu name "cls" ml path)) = Ok self' /\
    cls_pos self' = None /\
    forall data,
      outcome (encode env self' data)
      = Raised (Exn AttributeError ["cls_pos"%string]).
Proof.
  intros Htc Hmc Hnat Hnone.
  destruct (post_init_ok env v gpu name "cls" ml path tc mc Htc Hmc)
    as (self' & tk & mdl & f & Hok & Hb & Hname & Hp & Hcls).
  exists self'. rewrite Hnone in Hcls. repeat split; auto.
  intros data. rewrite (encode_run env self' tk mdl f data Hb). cbv zeta.
  rewrite dispatch_cls_unregistered; auto. now rewrite Hname.
Qed.

(** C8.  After initialisation the registered position is [head] for the
    six BERT-like identities and [tail] for xlnet-base-cased; for
    openai-gpt, gpt2, xlm-mlm-enfr-1024 and ctrl no position is
    registered, and on the initialised encoder (either variant) [encode]
    with 'cls' pooling fails on every batch, reading the missing
    attribute. *)
Theorem cls_position_registry (env : environment) v gpu ml path :
  Forall (fun name =>
            exists self',
              outcome (_init_tokenizer env (__init__ v gpu name "cls" ml path))
              = Ok self' /\
              cls_pos self' = Some head)
         [ "bert-base-uncased"; "distilbert-base-cased"; "roberta-base";
           "xlm-roberta-base"; "flaubert-base-cased"; "camembert-base" ]%string
  /\
  (exists self',
      outcome (_init_tokenizer env
                 (__init__ v gpu "xlnet-base-cased" "cls" ml path)) = Ok self' /\
      cls_pos self' = Some tail)
  /\
  Forall (fun name =>
            exists self',
              outcome (post_init env (__init__ v gpu name "cls" ml path))
              = Ok self' /\
              cls_pos self' = None /\
              forall data,
                outcome (encode env self' data)
                = Raised (Exn AttributeError ["cls_pos"%string]))
         [ "openai-gpt"; "gpt2"; "xlm-mlm-enfr-1024"; "ctrl" ]%string.
Proof.
  split; [|split].
  - repeat constructor;
      match goal with
      | |- exists _, outcome (_init_tokenizer _ (__init__ _ _ ?n _ _ _)) = _ /\ _ =>
          destruct (dict_get tokenizer_dict n) as [tc|] eqn:Htc;
            [|discriminate Htc];
          destruct (init_tokenizer_ok env v gpu n "cls" ml path tc Htc)
            as (self' & Hok & Hcls);
          exists self'; split; [exact Hok|rewrite Hcls; reflexivity]
      end.
  - destruct (init_tokenizer_ok env v gpu "xlnet-base-cased" "cls" ml path
                XLNetTokenizer eq_refl) as (self' & Hok & Hcls).
    exists self'. split; [exact Hok|rewrite Hcls; reflexivity].
  - repeat constructor;
      match goal with
      | |- exists _, outcome (post_init _ (__init__ _ _ ?n _ _ _)) = _ /\ _ =>
          destruct (dict_get tokenizer_dict n) as [tc|] eqn:Htc;
            [|discriminate Htc];
          destruct (dict_get (model_dict_of v) n) as [mc|] eqn:Hmc;
            [|destruct v; discriminate Hmc];
          apply (encode_cls_unregistered env v gpu n ml path tc mc Htc Hmc);
            reflexivity
      end.
Qed.

(** C5 (evaluation).  flaubert-base-cased belongs to the registry and
    passes [_init_tokenizer], but the class table of the TensorFlow
    variant has no entry for it: initialising that variant raises
    [KeyError], while the Torch variant initialises.  For the ten other
    identities both variants initialise. *)
Theorem tf_variant_cannot_initialise_flaubert (env : environment)
  gpu p ml path :
  In "flaubert-base-cased"%string supported_models /\
  outcome (post_init env (__init__ TF gpu "flaubert-base-cased" p ml path))
  = Raised (Exn KeyError ["flaubert-base-cased"%string]) /\
  succeeds (post_init env (__init__ Torch gpu "flaubert-base-cased" p ml path))
  = true /\
  Forall (fun name =>
            succeeds (post_init env (__init__ TF gpu name p ml path)) = true /\
            succeeds (post_init env (__init__ Torch gpu name p ml path)) = true)
         [ "bert-base-uncased"; "openai-gpt"; "gpt2"; "xlnet-base-cased";
           "xlm-mlm-enfr-1024"; "distilbert-base-cased"; "roberta-base";
           "xlm-roberta-base"; "camembert-base"; "ctrl" ]%string.
Proof.
  assert (Hsucc : forall v name tc mc,
             dict_get tokenizer_dict name = Some tc ->
             dict_get (model_dict_of v) name = Some mc ->
             succeeds (post_init env (__init__ v gpu name p ml path)) = true).
  { intros v name tc mc Htc Hmc.
    destruct (post_init_ok env v gpu name p ml path tc mc Htc Hmc)
      as (self' & tk & mdl & f & Hok & _).
    unfold succeeds. now rewrite Hok. }
  split; [|split; [|split]].
  - simpl. tauto.
  - unfold post_init, _init_tokenizer, dict_contains, dict_index,
      model_abspath, __init__.
    simpl.
    destruct (path_exists env (get_file_from_workspace env path));
      reflexivity.
  - apply (Hsucc Torch _ FlaubertTokenizer FlaubertModel); reflexivity.
  - repeat constructor;
      match goal with
      | |- succeeds (post_init _ (__init__ ?v _ ?n _ _ _)) = true =>
          destruct (dict_get tokenizer_dict n) as [tc|] eqn:Htc;
            [|discriminate Htc];
          destruct (dict_get (model_dict_of v) n) as [mc|] eqn:Hmc;
            [|discriminate Hmc];
          exact (Hsucc v n tc mc Htc Hmc)
      end.
Qed.

(** ** Unsupported model names *)

Lemma str_in_cons (sub : string) (c : ascii) (s : string) :
  str_in sub (String c s) = String.prefix sub (String c s) || str_in sub s.
Proof. reflexivity. Qed.

Lemma str_in_app_r (sub a b : string) :
  str_in sub b = true -> str_in sub (a ++ b)%string = true.
Proof.
  intros H. induction a as [|c a IH]; [exact H|].
  change (String c a ++ b)%string with (String c (a ++ b)%string).
  rewrite str_in_cons, IH. apply orb_true_r.
Qed.

Lemma not_supported_message_enumerates (name : string) :
  enumerates_supported (not_supported_message name).
Proof.
  intros n Hin. unfold not_supported_message. apply str_in_app_r.
  unfold supported_models in Hin. simpl in Hin.
  repeat (destruct Hin as [<-|Hin]; [vm_compute; reflexivity|]).
  contradiction.
Qed.

(** C6 (as stated, refuted).  For the name unknown-model the exception
    that reaches the caller is a bare [ValueError]: its message is empty
    and so does not enumerate the supported identities. *)
Lemma unsupported_model_exception_has_no_message :
  ~ (exists e,
        outcome (post_init toy_env
                   (__init__ Torch false "unknown-model" "mean" 64 "transformer"))
        = Raised e /\
        exn_cls e = UnsupportedModelError /\
        enumerates_supported (exn_message e)).
Proof.
  intros (e & He & _ & Henum).
  vm_compute in He. inversion He; subst e. clear He.
  specialize (Henum "ctrl"%string).
  assert (Hin : In "ctrl"%string supported_models) by (simpl; tauto).
  specialize (Henum Hin). vm_compute in Henum. discriminate.
Qed.

(** C6 (amended).  For a model name outside the registry, initialisation
    logs one error record whose text enumerates every supported
    identity and then raises a bare [ValueError] (the unsupported-model
    error, with no message of its own); nothing else happens before the
    failure, in particular no tokenizer is loaded or called. *)
Theorem unsupported_model_rejected (env : environment) v gpu name p ml path :
  dict_contains tokenizer_dict name = false ->
  post_init env (__init__ v gpu name p ml path) =
    ([LogError (not_supported_message name)],
     Raised (Exn UnsupportedModelError [])) /\
  enumerates_supported (not_supported_message name) /\
  existsb is_tokenizer_event
          (trace (post_init env (__init__ v gpu name p ml path))) = false.
Proof.
  intros Hname.
  assert (Hrun : post_init env (__init__ v gpu name p ml path) =
                 ([LogError (not_supported_message name)],
                  Raised (Exn UnsupportedModelError []))).
  { unfold post_init, _init_tokenizer, __init__. simpl model_name.
    rewrite Hname. reflexivity. }
  split; [exact Hrun|split].
  - apply not_supported_message_enumerates.
  - rewrite Hrun. reflexivity.
Qed.

Lemma unsupported_model_rejected_witness :
  post_init toy_env (__init__ TF false "unknown-model" "mean" 64 "transformer") =
    ([LogError (not_supported_message "unknown-model")],
     Raised (Exn UnsupportedModelError [])).
Proof.
  exact (proj1 (unsupported_model_rejected toy_env TF false "unknown-model"
                  "mean" 64 "transformer" eq_refl)).
Defined.

(** ** Selected positions of a row *)

Lemma selected_all_zero (row_s : list vec) (row_m : list Z) :
  all_zero row_m = true -> selected row_s row_m = [].
Proof.
  revert row_m. induction row_s as [|v row_s IH]; intros [|m row_m] H;
    simpl; try reflexivity.
  unfold all_zero in H. cbn [forallb] in H.
  apply andb_true_iff in H. destruct H as [Hm Hrest].
  apply Z.eqb_eq in Hm. subst m. simpl. auto.
Qed.

Lemma selected_In (v : vec) (row_s : list vec) (row_m : list Z) :
  In v (selected row_s row_m) <->
  exists j, nth_error row_m j = Some 1 /\ nth_error row_s j = Some v.
Proof.
  revert row_m. induction row_s as [|w row_s IH]; intros [|m row_m]; simpl.
  - split; [tauto|]. intros (j & _ & H). destruct j; discriminate.
  - split; [tauto|]. intros (j & _ & H). destruct j; discriminate.
  - split; [tauto|]. intros (j & H & _). destruct j; discriminate.
  - destruct (Z.eqb_spec m 1) as [->|Hm].
    + simpl. rewrite IH. split.
      * intros [<-|(j & H1 & H2)]; [exists 0%nat|exists (S j)]; simpl; auto.
      * intros ([|j] & H1 & H2); simpl in *.
        -- left. congruence.
        -- right. eauto.
    + rewrite IH. split.
      * intros (j & H1 & H2). exists (S j). simpl. auto.
      * intros ([|j] & H1 & H2); simpl in *.
        -- congruence.
        -- eauto.
Qed.

Lemma selected_nonempty (row_s : list vec) (row_m : list Z) :
  List.length row_s = List.length row_m ->
  has_real row_m = true ->
  selected row_s row_m <> [].
Proof.
  revert row_m. induction row_s as [|w row_s IH]; intros [|m row_m] Hlen H;
    simpl in Hlen; try discriminate.
  unfold has_real in H. cbn [existsb] in H. rewrite Z.eqb_sym in H.
  cbn [selected].
  destruct (m =? 1); [discriminate|].
  apply IH; [lia|exact H].
Qed.

Lemma selected_length (row_s : list vec) (row_m : list Z) :
  List.length row_s = List.length row_m ->
  List.length (selected row_s row_m) = real_count row_m.
Proof.
  unfold real_count.
  revert row_m. induction row_s as [|w row_s IH]; intros [|m row_m] Hlen;
    simpl in *; try discriminate; try reflexivity.
  destruct (Z.eqb_spec m 1) as [->|Hm].
  - destruct (Z.eq_dec 1 1); [|congruence]. simpl. f_equal. apply IH. lia.
  - destruct (Z.eq_dec m 1); [congruence|]. apply IH. lia.
Qed.

Lemma selected_agree (row_m : list Z) (row_s row_s' : list vec) :
  agree_on_real row_m row_s row_s' ->
  selected row_s row_m = selected row_s' row_m.
Proof.
  unfold agree_on_real. revert row_s row_s'.
  induction row_m as [|m row_m IH]; intros [|v row_s] [|v' row_s'] [Hlen H];
    simpl in *; try discriminate; try reflexivity.
  assert (Htl : selected row_s row_m = selected row_s' row_m).
  { apply IH. split; [lia|]. intros j Hj. apply (H (S j)). exact Hj. }
  destruct (Z.eqb_spec m 1) as [->|Hm]; [|exact Htl].
  specialize (H 0%nat eq_refl). simpl in H. inversion H. now rewrite Htl.
Qed.

Lemma selected_Forall (P : vec -> Prop) (row_s : list vec) (row_m : list Z) :
  Forall P row_s -> Forall P (selected row_s row_m).
Proof.
  intros H. revert row_m. induction H as [|v row_s Hv _ IH]; intros [|m row_m];
    simpl; auto.
  destruct (m =? 1); auto.
Qed.

Lemma row_shape_ok_inv (D : nat) (row_s : list vec) (row_m : list Z) :
  row_shape_ok D row_s row_m = true ->
  List.length row_s = List.length row_m /\
  Forall (fun v => List.length v = D) row_s.
Proof.
  unfold row_shape_ok. rewrite andb_true_iff, Nat.eqb_eq, forallb_forall.
  intros [Hlen Hall]. split; [exact Hlen|].
  apply Forall_forall. intros v Hv. apply Nat.eqb_eq. auto.
Qed.

(** ** Elementwise folds *)

Section ElementwiseFold.

Variable f : Q -> Q -> Q.

Lemma zip_with_length (D : nat) (a b : vec) :
  List.length a = D -> List.length b = D -> List.length (zip_with f a b) = D.
Proof.
  revert D b. induction a as [|x a IH]; intros D [|y b] Ha Hb; simpl in *;
    try congruence.
  destruct D; [discriminate|]. f_equal. apply IH; lia.
Qed.

Lemma zip_with_nth (a b : vec) (d : nat) :
  List.length a = List.length b -> (d < List.length a)%nat ->
  nth d (zip_with f a b) 0%Q = f (nth d a 0%Q) (nth d b 0%Q).
Proof.
  revert b d. induction a as [|x a IH]; intros [|y b] d Hlen Hd; simpl in *;
    try lia.
  destruct d; [reflexivity|]. apply IH; lia.
Qed.

Lemma fold_vecs_length (D : nat) (v : vec) (vs : list vec) :
  List.length v = D -> Forall (fun w => List.length w = D) vs ->
  List.length (fold_vecs f v vs) = D.
Proof.
  unfold fold_vecs. intros Hv Hvs. revert v Hv.
  induction Hvs as [|w vs Hw _ IH]; intros v Hv; simpl; [exact Hv|].
  apply IH. now apply zip_with_length.
Qed.

Lemma fold_vecs_nth (D : nat) (v : vec) (vs : list vec) (d : nat) :
  List.length v = D -> Forall (fun w => List.length w = D) vs -> (d < D)%nat ->
  nth d (fold_vecs f v vs) 0%Q = fold_left f (column d vs) (nth d v 0%Q).
Proof.
  unfold fold_vecs. intros Hv Hvs Hd. revert v Hv.
  induction Hvs as [|w vs Hw _ IH]; intros v Hv; simpl; [reflexivity|].
  rewrite IH by now apply zip_with_length.
  rewrite zip_with_nth by lia. reflexivity.
Qed.

End ElementwiseFold.

Section Extremum.

Variable f : Q -> Q -> Q.
Variable le : Q -> Q -> Prop.
Hypothesis le_refl : forall a, le a a.
Hypothesis le_trans : forall a b c, le a b -> le b c -> le a c.
Hypothesis f_select : forall a b, f a b = a \/ f a b = b.
Hypothesis f_bound_l : forall a b, le a (f a b).
Hypothesis f_bound_r : forall a b, le b (f a b).

Lemma fold_select (x : Q) (xs : list Q) : In (fold_left f xs x) (x :: xs).
Proof.
  revert x. induction xs as [|y xs IH]; intros x; simpl; [auto|].
  destruct (IH (f x y)) as [H|H]; [|auto].
  rewrite <- H. destruct (f_select x y) as [E|E]; rewrite E; auto.
Qed.

Lemma fold_bound_acc (x : Q) (xs : list Q) : le x (fold_left f xs x).
Proof.
  revert x. induction xs as [|y xs IH]; intros x; simpl; [apply le_refl|].
  eapply le_trans; [apply f_bound_l|apply IH].
Qed.

Lemma fold_bound (x : Q) (xs : list Q) (y : Q) :
  In y (x :: xs) -> le y (fold_left f xs x).
Proof.
  revert x. induction xs as [|z xs IH]; intros x [<-|Hin]; simpl.
  - apply le_refl.
  - destruct Hin.
  - eapply le_trans; [apply f_bound_l|apply fold_bound_acc].
  - destruct Hin as [<-|Hin].
    + eapply le_trans; [apply f_bound_r|apply fold_bound_acc].
    + apply IH. now right.
Qed.

(** The row rule of max/min pooling: on a well-shaped row with a real
    token the result has the hidden dimension and each component is
    attained at, and bounds, the real positions. *)
Lemma reduce_row_with_extremum (D : nat) (row_s : list vec) (row_m : list Z) :
  row_shape_ok D row_s row_m = true ->
  has_real row_m = true ->
  exists v,
    reduce_row_with f row_s row_m = Ok v /\
    List.length v = D /\
    forall d q, nth_error v d = Some q ->
      (exists j, nth_error row_m j = Some 1 /\ entry row_s j d = Some q) /\
      (forall j x, nth_error row_m j = Some 1 -> entry row_s j d = Some x ->
                   le x q).
Proof.
  intros Hshape Hreal.
  destruct (row_shape_ok_inv _ _ _ Hshape) as [Hlen Hdim].
  pose proof (selected_nonempty _ _ Hlen Hreal) as Hne.
  pose proof (selected_Forall _ _ row_m Hdim) as Hsel.
  pose proof (fun w => proj1 (selected_In w row_s row_m)) as Hin.
  pose proof (fun w => proj2 (selected_In w row_s row_m)) as Hni.
  unfold reduce_row_with.
  destruct (selected row_s row_m) as [|v vs]; [congruence|].
  inversion Hsel as [|? ? Hv Hvs]; subst.
  exists (fold_vecs f v vs). split; [reflexivity|].
  split; [now apply fold_vecs_length|].
  intros d q Hq.
  assert (Hd : (d < List.length v)%nat).
  { rewrite <- (fold_vecs_length f (List.length v) v vs eq_refl Hvs).
    apply nth_error_Some. congruence. }
  assert (Hqv : q = fold_left f (column d vs) (nth d v 0%Q)).
  { rewrite <- (fold_vecs_nth f (List.length v) v vs d eq_refl Hvs Hd).
    symmetry. apply nth_error_nth with (d := 0%Q) in Hq. exact Hq. }
  split.
  - pose proof (fold_select (nth d v 0%Q) (column d vs)) as Hmem.
    rewrite <- Hqv in Hmem.
    change (nth d v 0%Q :: column d vs) with (column d (v :: vs)) in Hmem.
    unfold column in Hmem. apply in_map_iff in Hmem.
    destruct Hmem as (w & Hw & Hwin).
    destruct (Hin w Hwin) as (j & Hj1 & Hj2).
    exists j. split; [exact Hj1|]. unfold entry. rewrite Hj2.
    rewrite <- Hw. apply nth_error_nth'.
    rewrite Forall_forall in Hsel. rewrite (Hsel w Hwin). exact Hd.
  - intros j x Hj Hx. unfold entry in Hx.
    destruct (nth_error row_s j) as [w|] eqn:Hw; [|discriminate].
    assert (Hwin : In w (v :: vs)) by (apply Hni; eauto).
    rewrite Hqv. apply fold_bound.
    change (nth d v 0%Q :: column d vs) with (column d (v :: vs)).
    unfold column. apply in_map_iff. exists w. split; [|exact Hwin].
    apply nth_error_nth. exact Hx.
Qed.

End Extremum.

(** ** The order on hidden-state components *)

Lemma qmax_select (a b : Q) : qmax a b = a \/ qmax a b = b.
Proof. unfold qmax. destruct (Qle_bool a b); auto. Qed.

Lemma qmin_select (a b : Q) : qmin a b = a \/ qmin a b = b.
Proof. unfold qmin. destruct (Qle_bool a b); auto. Qed.

Lemma Qle_bool_false (a b : Q) : Qle_bool a b = false -> (b <= a)%Q.
Proof.
  intros H. apply Qlt_le_weak. apply Qnot_le_lt. intros Hle.
  apply Qle_bool_iff in Hle. congruence.
Qed.

Lemma qmax_bound_l (a b : Q) : (a <= qmax a b)%Q.
Proof.
  unfold qmax. destruct (Qle_bool a b) eqn:E.
  - now apply Qle_bool_iff.
  - apply Qle_refl.
Qed.

Lemma qmax_bound_r (a b : Q) : (b <= qmax a b)%Q.
Proof.
  unfold qmax. destruct (Qle_bool a b) eqn:E.
  - apply Qle_refl.
  - now apply Qle_bool_false.
Qed.

Lemma qmin_bound_l (a b : Q) : (qmin a b <= a)%Q.
Proof.
  unfold qmin. destruct (Qle_bool a b) eqn:E.
  - apply Qle_refl.
  - now apply Qle_bool_false.
Qed.

Lemma qmin_bound_r (a b : Q) : (qmin a b <= b)%Q.
Proof.
  unfold qmin. destruct (Qle_bool a b) eqn:E.
  - now apply Qle_bool_iff.
  - apply Qle_refl.
Qed.

Lemma reduce_max_row_spec (D : nat) (row_s : list vec) (row_m : list Z) :
  row_shape_ok D row_s row_m = true ->
  has_real row_m = true ->
  exists v,
    reduce_row_with qmax row_s row_m = Ok v /\
    List.length v = D /\
    forall d q, nth_error v d = Some q -> is_max_over row_s row_m d q.
Proof.
  apply (reduce_row_with_extremum qmax Qle Qle_refl Qle_trans qmax_select
           qmax_bound_l qmax_bound_r).
Qed.

Lemma reduce_min_row_spec (D : nat) (row_s : list vec) (row_m : list Z) :
  row_shape_ok D row_s row_m = true ->
  has_real row_m = true ->
  exists v,
    reduce_row_with qmin row_s row_m = Ok v /\
    List.length v = D /\
    forall d q, nth_error v d = Some q -> is_min_over row_s row_m d q.
Proof.
  apply (reduce_row_with_extremum qmin (fun x y => (y <= x)%Q)).
  - apply Qle_refl.
  - intros a b c Hab Hbc. eapply Qle_trans; eauto.
  - apply qmin_select.
  - apply qmin_bound_l.
  - apply qmin_bound_r.
Qed.

Lemma reduce_row_with_agree f (row_m : list Z) (row_s row_s' : list vec) :
  agree_on_real row_m row_s row_s' ->
  reduce_row_with f row_s' row_m = reduce_row_with f row_s row_m.
Proof.
  intros H. unfold reduce_row_with. now rewrite (selected_agree _ _ _ H).
Qed.

(** ** Rows of a batch *)

Lemma map_rows_nth {A B C} (f : A -> B -> result C) xs ys out b x y :
  map_rows f xs ys = Ok out ->
  nth_error xs b = Some x -> nth_error ys b = Some y ->
  exists c, f x y = Ok c /\ nth_error out b = Some c.
Proof.
  revert ys out b.
  induction xs as [|x0 xs IH]; intros [|y0 ys] out b H Hx Hy;
    try (destruct b; discriminate).
  simpl in H.
  destruct (f x0 y0) as [c0|] eqn:Hf; [|discriminate].
  destruct (map_rows f xs ys) as [cs|] eqn:Hr; [|discriminate].
  inversion H; subst out.
  destruct b as [|b]; simpl in *.
  - inversion Hx; inversion Hy; subst. eauto.
  - eapply IH; eauto.
Qed.

Lemma map_rows_total {A B C} (f : A -> B -> result C) xs ys :
  (forall b x y, nth_error xs b = Some x -> nth_error ys b = Some y ->
                 exists c, f x y = Ok c) ->
  exists out, map_rows f xs ys = Ok out.
Proof.
  revert ys. induction xs as [|x0 xs IH]; intros [|y0 ys] H; simpl;
    try (eexists; reflexivity).
  destruct (H 0%nat x0 y0 eq_refl eq_refl) as (c & Hc). rewrite Hc.
  destruct (IH ys) as (cs & Hcs).
  { intros b x y Hx Hy. apply (H (S b)); assumption. }
  rewrite Hcs. eauto.
Qed.

Lemma map_rows_fails {A B C} (f : A -> B -> result C) xs ys E b x y :
  (forall b' x' y' e, nth_error xs b' = Some x' -> nth_error ys b' = Some y' ->
                      f x' y' = Raised e -> e = E) ->
  nth_error xs b = Some x -> nth_error ys b = Some y ->
  f x y = Raised E ->
  map_rows f xs ys = Raised E.
Proof.
  revert ys b.
  induction xs as [|x0 xs IH]; intros [|y0 ys] b Huni Hx Hy Hf;
    try (destruct b; discriminate).
  simpl. destruct b as [|b]; simpl in Hx, Hy.
  - inversion Hx; inversion Hy; subst. now rewrite Hf.
  - destruct (f x0 y0) as [c0|e0] eqn:Hf0.
    + rewrite (IH ys b); auto.
      intros b' x' y' e Hx' Hy'. apply (Huni (S b')); assumption.
    + f_equal. apply (Huni 0%nat x0 y0); auto.
Qed.

Lemma shape_ok_nth (D : nat) (seq : tensor3) (mask : int_matrix) b row_s row_m :
  shape_ok D seq mask = true ->
  nth_error seq b = Some row_s -> nth_error mask b = Some row_m ->
  row_shape_ok D row_s row_m = true.
Proof.
  revert mask b.
  induction seq as [|s0 seq IH]; intros [|m0 mask] b H Hs Hm;
    try (destruct b; discriminate).
  simpl in H. apply andb_true_iff in H. destruct H as [H0 Hrest].
  destruct b as [|b]; simpl in Hs, Hm.
  - inversion Hs; inversion Hm; subst. exact H0.
  - eapply IH; eauto.
Qed.

Lemma shape_ok_row_of_mask (D : nat) (seq : tensor3) (mask : int_matrix) b row_m :
  shape_ok D seq mask = true ->
  nth_error mask b = Some row_m ->
  exists row_s, nth_error seq b = Some row_s.
Proof.
  revert mask b.
  induction seq as [|s0 seq IH]; intros [|m0 mask] b H Hm;
    try discriminate; try (destruct b; discriminate).
  simpl in H. apply andb_true_iff in H. destruct H as [_ Hrest].
  destruct b as [|b]; simpl in Hm |- *; eauto.
Qed.

Lemma forallb_nth {A} (p : A -> bool) (l : list A) b x :
  forallb p l = true -> nth_error l b = Some x -> p x = true.
Proof.
  intros H Hx. rewrite forallb_forall in H. apply H.
  eapply nth_error_In; eauto.
Qed.

(** ** From rows to [encode] *)

Section RowPooling.

Variable env : environment.
Variable self : encoder.
Variables (tk : PreTrainedTokenizer) (mdl : PreTrainedModel) (f : tensor_func).
Variable data : list string.
Variable g : list vec -> list Z -> result vec.

Hypothesis Hbackend : backend_of self = Some (tk, mdl, f).
Hypothesis Hdispatch : forall seq extra mask,
  pooling_dispatch self seq extra mask = lift (map_rows g seq mask).

Lemma encode_row_pooling :
  outcome (encode env self data) =
  map_rows g (sequence_output env self tk mdl f data)
           (batch_mask env tk (max_length self) data).
Proof.
  rewrite (encode_run env self tk mdl f data Hbackend). cbv zeta.
  rewrite Hdispatch. reflexivity.
Qed.

Lemma encode_row_result b row_s row_m v out :
  nth_error (sequence_output env self tk mdl f data) b = Some row_s ->
  nth_error (batch_mask env tk (max_length self) data) b = Some row_m ->
  g row_s row_m = Ok v ->
  outcome (encode env self data) = Ok out ->
  nth_error out b = Some v.
Proof.
  intros Hs Hm Hg Hout. rewrite encode_row_pooling in Hout.
  destruct (map_rows_nth _ _ _ _ _ _ _ Hout Hs Hm) as (c & Hc & Hn).
  congruence.
Qed.

Lemma encode_rows_total :
  (forall b x y,
      nth_error (sequence_output env self tk mdl f data) b = Some x ->
      nth_error (batch_mask env tk (max_length self) data) b = Some y ->
      exists c, g x y = Ok c) ->
  exists out, outcome (encode env self data) = Ok out.
Proof.
  intros H. rewrite encode_row_pooling. now apply map_rows_total.
Qed.

End RowPooling.

Lemma dispatch_max (self : encoder) seq extra mask :
  pooling_strategy self = "max"%string ->
  pooling_dispatch self seq extra mask = lift (reduce_max seq mask).
Proof. intros H. unfold pooling_dispatch. rewrite H. reflexivity. Qed.

Lemma dispatch_min (self : encoder) seq extra mask :
  pooling_strategy self = "min"%string ->
  pooling_dispatch self seq extra mask = lift (reduce_min seq mask).
Proof. intros H. unfold pooling_dispatch. rewrite H. reflexivity. Qed.

Lemma dispatch_mean (self : encoder) seq extra mask :
  pooling_strategy self = "mean"%string ->
  pooling_dispatch self seq extra mask = lift (reduce_mean seq mask).
Proof. intros H. unfold pooling_dispatch. rewrite H. reflexivity. Qed.

Lemma dispatch_cls_extract (self : encoder) pos seq extra mask :
  pooling_strategy self = "cls"%string ->
  in_tuple (model_name self) native_pooled_models = false ->
  cls_pos self = Some pos ->
  pooling_dispatch self seq extra mask = lift (reduce_cls seq mask pos).
Proof.
  intros H Hn Hp. unfold pooling_dispatch. rewrite H, Hn, Hp. simpl.
  unfold lift. destruct (reduce_cls seq mask pos); reflexivity.
Qed.

(** ** Max and min pooling *)

(** C1.  Take a row [b] of the batch whose mask holds at least one 1
    (and whose sequence output has the mask's length and hidden
    dimension [D]).  Under 'max' pooling the row rule yields a vector of
    length [D] whose every component is the maximum of that component
    over exactly the positions with mask 1; rows that differ only at
    masked-out positions give the same vector; and whenever [encode]
    returns, row [b] of its result is that vector.  Under 'min' pooling
    the same holds with the minimum.  When every row of a well-shaped
    batch has a real token, [encode] returns. *)
Theorem max_min_pooling_over_real_tokens (env : environment) (self : encoder)
  tk mdl f data (D b : nat) (row_s : list vec) (row_m : list Z) :
  backend_of self = Some (tk, mdl, f) ->
  nth_error (sequence_output env self tk mdl f data) b = Some row_s ->
  nth_error (batch_mask env tk (max_length self) data) b = Some row_m ->
  row_shape_ok D row_s row_m = true ->
  has_real row_m = true ->
  (pooling_strategy self = "max"%string ->
   exists v,
     List.length v = D /\
     (forall d q, nth_error v d = Some q -> is_max_over row_s row_m d q) /\
     (forall row_s', agree_on_real row_m row_s row_s' ->
                     reduce_row_with qmax row_s' row_m = Ok v) /\
     (forall out, outcome (encode env self data) = Ok out ->
                  nth_error out b = Some v))
  /\
  (pooling_strategy self = "min"%string ->
   exists v,
     List.length v = D /\
     (forall d q, nth_error v d = Some q -> is_min_over row_s row_m d q) /\
     (forall row_s', agree_on_real row_m row_s row_s' ->
                     reduce_row_with qmin row_s' row_m = Ok v) /\
     (forall out, outcome (encode env self data) = Ok out ->
                  nth_error out b = Some v))
  /\
  (pooling_strategy self = "max"%string \/ pooling_strategy self = "min"%string ->
   shape_ok D (sequence_output env self tk mdl f data)
            (batch_mask env tk (max_length self) data) = true ->
   forallb has_real (batch_mask env tk (max_length self) data) = true ->
   exists out, outcome (encode env self data) = Ok out).
Proof.
  intros Hb Hs Hm Hshape Hreal. split; [|split].
  - intros Hp.
    destruct (reduce_max_row_spec D row_s row_m Hshape Hreal)
      as (v & Hv & Hlen & Hmax).
    exists v. repeat split; auto.
    + apply (Hmax d q H).
    + apply (Hmax d q H).
    + intros row_s' Hagree. now rewrite (reduce_row_with_agree _ _ _ _ Hagree).
    + intros out Hout.
      eapply (encode_row_result env self tk mdl f data (reduce_row_with qmax));
        eauto.
      intros. now apply dispatch_max.
  - intros Hp.
    destruct (reduce_min_row_spec D row_s row_m Hshape Hreal)
      as (v & Hv & Hlen & Hmin).
    exists v. repeat split; auto.
    + apply (Hmin d q H).
    + apply (Hmin d q H).
    + intros row_s' Hagree. now rewrite (reduce_row_with_agree _ _ _ _ Hagree).
    + intros out Hout.
      eapply (encode_row_result env self tk mdl f data (reduce_row_with qmin));
        eauto.
      intros. now apply dispatch_min.
  - intros [Hp|Hp] Hall Hreals.
    + apply (encode_rows_total env self tk mdl f data (reduce_row_with qmax) Hb).
      * intros. now apply dispatch_max.
      * intros b' x y Hx Hy.
        destruct (reduce_max_row_spec D x y) as (c & Hc & _).
        { eapply shape_ok_nth; eauto. }
        { eapply forallb_nth; eauto. }
        eauto.
    + apply (encode_rows_total env self tk mdl f data (reduce_row_with qmin) Hb).
      * intros. now apply dispatch_min.
      * intros b' x y Hx Hy.
        destruct (reduce_min_row_spec D x y) as (c & Hc & _).
        { eapply shape_ok_nth; eauto. }
        { eapply forallb_nth; eauto. }
        eauto.
Qed.

Lemma max_min_pooling_over_real_tokens_witness :
  exists v,
    (forall d q, nth_error v d = Some q ->
                 is_max_over [[97; -97]; [98; -98]; [0; 0]]%Q [1; 1; 0] d q) /\
    (forall out,
        outcome (encode toy_env (toy_encoder Torch "bert-base-uncased" "max")
                        ["ab"; "c"]%string) = Ok out ->
        nth_error out 0 = Some v).
Proof.
  destruct (proj1 (max_min_pooling_over_real_tokens toy_env
                     (toy_encoder Torch "bert-base-uncased" "max")
                     _ _ _ ["ab"; "c"]%string 2 0
                     [[97; -97]; [98; -98]; [0; 0]]%Q [1; 1; 0]
                     eq_refl eq_refl eq_refl eq_refl eq_refl) eq_refl)
    as (v & _ & Hmax & _ & Hrow).
  exists v. split; [exact Hmax|exact Hrow].
Defined.

(** The design's example: the padded slot holds a filler that does not
    take part, whatever it is. *)
Example max_pooling_ignores_padding (filler : vec) :
  reduce_max [[[5; -5]; filler]]%Q [[1; 0]] = Ok [[5; -5]]%Q /\
  reduce_min [[[5; -5]; filler]]%Q [[1; 0]] = Ok [[5; -5]]%Q.
Proof. split; reflexivity. Qed.

(** ** Mean pooling *)

Lemma fold_left_Qplus (xs : list Q) (acc : Q) :
  (fold_left Qplus xs acc == acc + fold_right Qplus 0 xs)%Q.
Proof.
  revert acc. induction xs as [|x xs IH]; intros acc; simpl.
  - now rewrite Qplus_0_r.
  - rewrite IH. now rewrite Qplus_assoc.
Qed.

Lemma masked_sum_selected (row_s : list vec) (row_m : list Z) (d : nat) :
  (fold_right Qplus 0 (column d (selected row_s row_m))
   == masked_sum row_s row_m d)%Q.
Proof.
  revert row_m. induction row_s as [|v row_s IH]; intros [|m row_m]; simpl;
    try reflexivity.
  destruct (m =? 1); simpl.
  - now rewrite IH.
  - rewrite IH. now rewrite Qplus_0_l.
Qed.

(** The row rule of mean pooling. *)
Lemma reduce_mean_row_spec (D : nat) (row_s : list vec) (row_m : list Z) :
  row_shape_ok D row_s row_m = true ->
  has_real row_m = true ->
  exists v,
    reduce_mean_row row_s row_m = Ok v /\
    List.length v = D /\
    forall d q, nth_error v d = Some q ->
      (q == masked_sum row_s row_m d
            / inject_Z (Z.of_nat (real_count row_m)))%Q.
Proof.
  intros Hshape Hreal.
  destruct (row_shape_ok_inv _ _ _ Hshape) as [Hlen Hdim].
  pose proof (selected_nonempty _ _ Hlen Hreal) as Hne.
  pose proof (selected_Forall _ _ row_m Hdim) as Hsel.
  pose proof (selected_length _ _ Hlen) as Hcount.
  pose proof (fun d => masked_sum_selected row_s row_m d) as Hsum.
  unfold reduce_mean_row.
  destruct (selected row_s row_m) as [|v vs]; [congruence|].
  inversion Hsel as [|? ? Hv Hvs]; subst.
  eexists. split; [reflexivity|]. split.
  - rewrite length_map. now apply fold_vecs_length.
  - intros d q Hq. rewrite <- Hcount.
    rewrite nth_error_map in Hq.
    destruct (nth_error (fold_vecs Qplus v vs) d) as [x|] eqn:Hx;
      [|discriminate].
    simpl in Hq. inversion Hq; subst q. clear Hq.
    assert (Hd : (d < List.length v)%nat).
    { rewrite <- (fold_vecs_length Qplus (List.length v) v vs eq_refl Hvs).
      apply nth_error_Some. congruence. }
    apply nth_error_nth with (d := 0%Q) in Hx.
    rewrite (fold_vecs_nth Qplus (List.length v) v vs d eq_refl Hvs Hd) in Hx.
    subst x. rewrite fold_left_Qplus. rewrite <- Hsum. simpl. reflexivity.
Qed.

(** C4.  Take a row [b] of the batch whose mask holds at least one 1
    (and whose sequence output has the mask's length and hidden
    dimension [D]).  Under 'mean' pooling the row rule yields a vector of
    length [D] whose component [d] is the sum of [seq[b][j][d]] over the
    positions [j] with mask 1 divided by the number of such positions;
    whenever [encode] returns, row [b] of its result is that vector; and
    when every row of a well-shaped batch has a real token, [encode]
    returns. *)
Theorem mean_pooling_averages_real_tokens (env : environment) (self : encoder)
  tk mdl f data (D b : nat) (row_s : list vec) (row_m : list Z) :
  backend_of self = Some (tk, mdl, f) ->
  pooling_strategy self = "mean"%string ->
  nth_error (sequence_output env self tk mdl f data) b = Some row_s ->
  nth_error (batch_mask env tk (max_length self) data) b = Some row_m ->
  row_shape_ok D row_s row_m = true ->
  has_real row_m = true ->
  (exists v,
     reduce_mean_row row_s row_m = Ok v /\
     List.length v = D /\
     (forall d q, nth_error v d = Some q ->
        (q == masked_sum row_s row_m d
              / inject_Z (Z.of_nat (real_count row_m)))%Q) /\
     (forall out, outcome (encode env self data) = Ok out ->
                  nth_error out b = Some v))
  /\
  (shape_ok D (sequence_output env self tk mdl f data)
            (batch_mask env tk (max_length self) data) = true ->
   forallb has_real (batch_mask env tk (max_length self) data) = true ->
   exists out, outcome (encode env self data) = Ok out).
Proof.
  intros Hb Hp Hs Hm Hshape Hreal. split.
  - destruct (reduce_mean_row_spec D row_s row_m Hshape Hreal)
      as (v & Hv & Hlen & Havg).
    exists v. repeat split; auto.
    intros out Hout.
    eapply (encode_row_result env self tk mdl f data reduce_mean_row); eauto.
    intros. now apply dispatch_mean.
  - intros Hall Hreals.
    apply (encode_rows_total env self tk mdl f data reduce_mean_row Hb).
    + intros. now apply dispatch_mean.
    + intros b' x y Hx Hy.
      destruct (reduce_mean_row_spec D x y) as (c & Hc & _).
      { eapply shape_ok_nth; eauto. }
      { eapply forallb_nth; eauto. }
      eauto.
Qed.

Lemma mean_pooling_averages_real_tokens_witness :
  exists v,
    (forall d q, nth_error v d = Some q ->
       (q == masked_sum [[97; -97]; [98; -98]; [0; 0]] [1; 1; 0]%Z d
             / inject_Z 2)%Q) /\
    (forall out,
        outcome (encode toy_env (toy_encoder TF "bert-base-uncased" "mean")
                        ["ab"; "c"]%string) = Ok out ->
        nth_error out 0 = Some v).
Proof.
  destruct (proj1 (mean_pooling_averages_real_tokens toy_env
                     (toy_encoder TF "bert-base-uncased" "mean")
                     _ _ _ ["ab"; "c"]%string 2 0
                     [[97; -97]; [98; -98]; [0; 0]]%Q [1; 1; 0]
                     eq_refl eq_refl eq_refl eq_refl eq_refl eq_refl))
    as (v & _ & _ & Havg & Hrow).
  exists v. split; [exact Havg|exact Hrow].
Defined.

(** The design's example: rows [[2,2],[4,4],[0,0]] with mask [1,1,0]
    average to [3,3]. *)
Example mean_pooling_example :
  exists v,
    reduce_mean [[[2; 2]; [4; 4]; [0; 0]]]%Q [[1; 1; 0]] = Ok [v] /\
    Forall2 Qeq v [3; 3]%Q.
Proof.
  eexists. split; [reflexivity|].
  repeat constructor; reflexivity.
Qed.

(** ** The last real position of a row *)

Lemma last_real_index_none (row_m : list Z) :
  last_real_index row_m = None -> forall k, nth_error row_m k <> Some 1.
Proof.
  induction row_m as [|m row_m IH]; intros H k.
  - destruct k; discriminate.
  - cbn [last_real_index] in H.
    destruct (last_real_index row_m) as [j|]; [discriminate|].
    destruct (Z.eqb_spec m 1) as [->|Hm]; [discriminate|].
    destruct k as [|k]; simpl.
    + intros E. inversion E. contradiction.
    + now apply IH.
Qed.

Lemma last_real_index_some (row_m : list Z) (j : nat) :
  last_real_index row_m = Some j -> is_last_real row_m j.
Proof.
  unfold is_last_real. revert j.
  induction row_m as [|m row_m IH]; intros j H; [discriminate|].
  cbn [last_real_index] in H.
  destruct (last_real_index row_m) as [j'|] eqn:Hlast.
  - inversion H; subst j. destruct (IH j' eq_refl) as [Hj Hmax].
    split; [exact Hj|].
    intros [|k] Hk; [lia|]. simpl in Hk. specialize (Hmax k Hk). lia.
  - destruct (Z.eqb_spec m 1) as [->|Hm]; [|discriminate].
    inversion H; subst j. split; [reflexivity|].
    intros [|k] Hk; [lia|]. simpl in Hk.
    now elim (last_real_index_none row_m Hlast k).
Qed.

Lemma last_real_index_of_real (row_m : list Z) :
  has_real row_m = true -> exists j, last_real_index row_m = Some j.
Proof.
  unfold has_real. induction row_m as [|m row_m IH]; intros H; [discriminate|].
  cbn [existsb] in H. cbn [last_real_index].
  destruct (last_real_index row_m) as [j|]; [eauto|].
  rewrite Z.eqb_sym in H.
  destruct (m =? 1); [eauto|].
  destruct (IH H) as (j & Hj). discriminate.
Qed.

Lemma last_real_index_all_zero (row_m : list Z) :
  all_zero row_m = true -> last_real_index row_m = None.
Proof.
  unfold all_zero. induction row_m as [|m row_m IH]; intros H; [reflexivity|].
  cbn [forallb] in H. apply andb_true_iff in H. destruct H as [Hm Hrest].
  apply Z.eqb_eq in Hm. subst m.
  cbn [last_real_index]. now rewrite (IH Hrest).
Qed.

Lemma is_last_real_full (row_m : list Z) (j : nat) :
  is_last_real row_m j ->
  (forall m, In m row_m -> m = 1) ->
  S j = List.length row_m.
Proof.
  intros [Hj Hmax] Hall.
  assert (Hlt : (j < List.length row_m)%nat).
  { apply nth_error_Some. congruence. }
  destruct (Nat.eq_dec (S j) (List.length row_m)) as [E|E]; [exact E|].
  assert (Hk : (S j < List.length row_m)%nat) by lia.
  destruct (nth_error row_m (S j)) as [m|] eqn:Hm.
  - assert (m = 1) by (apply Hall; eapply nth_error_In; eauto). subst m.
    specialize (Hmax (S j) Hm). lia.
  - apply nth_error_None in Hm. lia.
Qed.

(** The row rule of cls extraction at the tail. *)
Lemma reduce_cls_tail_row_spec (D : nat) (row_s : list vec) (row_m : list Z) :
  row_shape_ok D row_s row_m = true ->
  has_real row_m = true ->
  exists j v,
    reduce_cls_row tail row_s row_m = Ok v /\
    is_last_real row_m j /\
    nth_error row_s j = Some v.
Proof.
  intros Hshape Hreal.
  destruct (row_shape_ok_inv _ _ _ Hshape) as [Hlen _].
  destruct (last_real_index_of_real row_m Hreal) as (j & Hj).
  pose proof (last_real_index_some row_m j Hj) as Hlast.
  assert (Hlt : (j < List.length row_s)%nat).
  { rewrite Hlen. apply nth_error_Some. destruct Hlast as [E _]. congruence. }
  destruct (nth_error row_s j) as [v|] eqn:Hv.
  - exists j, v. unfold reduce_cls_row. rewrite Hj, Hv. auto.
  - apply nth_error_None in Hv. lia.
Qed.

Lemma reduce_cls_tail_row_raised (D : nat) (row_s : list vec) (row_m : list Z) e :
  row_shape_ok D row_s row_m = true ->
  reduce_cls_row tail row_s row_m = Raised e ->
  e = Exn EmptySequenceError [].
Proof.
  intros Hshape H.
  destruct (has_real row_m) eqn:Hreal.
  - destruct (reduce_cls_tail_row_spec D row_s row_m Hshape Hreal)
      as (j & v & Hv & _). congruence.
  - unfold reduce_cls_row in H.
    destruct (last_real_index row_m) as [j|] eqn:Hj.
    + destruct (last_real_index_some row_m j Hj) as [Hone _].
      apply nth_error_In in Hone.
      assert (has_real row_m = true).
      { unfold has_real. apply existsb_exists. exists 1. split; auto. }
      congruence.
    + unfold empty_sequence in H. now inversion H.
Qed.

(** ** Rows without a real token *)

Lemma reduce_row_with_all_zero f (row_s : list vec) (row_m : list Z) :
  all_zero row_m = true -> reduce_row_with f row_s row_m = empty_sequence.
Proof.
  intros H. unfold reduce_row_with. now rewrite (selected_all_zero _ _ H).
Qed.

Lemma reduce_mean_row_all_zero (row_s : list vec) (row_m : list Z) :
  all_zero row_m = true -> reduce_mean_row row_s row_m = empty_sequence.
Proof.
  intros H. unfold reduce_mean_row. now rewrite (selected_all_zero _ _ H).
Qed.

Lemma reduce_cls_tail_row_all_zero (row_s : list vec) (row_m : list Z) :
  all_zero row_m = true -> reduce_cls_row tail row_s row_m = empty_sequence.
Proof.
  intros H. unfold reduce_cls_row. now rewrite (last_real_index_all_zero _ H).
Qed.

Lemma needs_real_token_cases (self : encoder) :
  needs_real_token self = true ->
  pooling_strategy self = "mean"%string \/
  pooling_strategy self = "max"%string \/
  pooling_strategy self = "min"%string \/
  (pooling_strategy self = "cls"%string /\
   in_tuple (model_name self) native_pooled_models = false /\
   cls_pos self = Some tail).
Proof.
  unfold needs_real_token, in_tuple. cbn [existsb].
  rewrite !orb_true_iff, !andb_true_iff, !String.eqb_eq, negb_true_iff.
  intros [[H|[H|[H|H]]]|[[H1 H2] H3]]; auto; try discriminate.
  do 3 right. repeat split; auto.
  destruct (cls_pos self) as [[|]|]; try discriminate. reflexivity.
Qed.

(** C3.  On a well-shaped batch, if some row of the attention mask is
    entirely zero and the configured reduction needs a real token (mean,
    max, min, or cls extraction at the tail), [encode] raises
    [EmptySequenceError]: the call has no result, for that row or for any
    other. *)
Theorem empty_mask_row_fails_whole_batch (env : environment) (self : encoder)
  tk mdl f data (D b : nat) (row_m : list Z) :
  backend_of self = Some (tk, mdl, f) ->
  needs_real_token self = true ->
  shape_ok D (sequence_output env self tk mdl f data)
           (batch_mask env tk (max_length self) data) = true ->
  nth_error (batch_mask env tk (max_length self) data) b = Some row_m ->
  all_zero row_m = true ->
  outcome (encode env self data) = Raised (Exn EmptySequenceError []).
Proof.
  intros Hb Hneeds Hshape Hm Hzero.
  destruct (shape_ok_row_of_mask _ _ _ _ _ Hshape Hm) as (row_s & Hs).
  destruct (needs_real_token_cases self Hneeds)
    as [Hp|[Hp|[Hp|(Hp & Hnat & Hpos)]]].
  - rewrite (encode_row_pooling env self tk mdl f data reduce_mean_row Hb)
      by (intros; now apply dispatch_mean).
    eapply map_rows_fails; eauto.
    + intros b' x y e _ _. apply reduce_mean_row_raised.
    + now apply reduce_mean_row_all_zero.
  - rewrite (encode_row_pooling env self tk mdl f data
               (reduce_row_with qmax) Hb)
      by (intros; now apply dispatch_max).
    eapply map_rows_fails; eauto.
    + intros b' x y e _ _. apply reduce_row_with_raised.
    + now apply reduce_row_with_all_zero.
  - rewrite (encode_row_pooling env self tk mdl f data
               (reduce_row_with qmin) Hb)
      by (intros; now apply dispatch_min).
    eapply map_rows_fails; eauto.
    + intros b' x y e _ _. apply reduce_row_with_raised.
    + now apply reduce_row_with_all_zero.
  - rewrite (encode_row_pooling env self tk mdl f data
               (reduce_cls_row tail) Hb)
      by (intros; now apply dispatch_cls_extract).
    eapply map_rows_fails; eauto.
    + intros b' x y e Hx Hy. apply (reduce_cls_tail_row_raised D).
      eapply shape_ok_nth; eauto.
    + now apply reduce_cls_tail_row_all_zero.
Qed.

Lemma empty_mask_row_fails_whole_batch_witness :
  outcome (encode toy_env (toy_encoder Torch "xlnet-base-cased" "cls")
                  ["ab"; EmptyString]%string)
  = Raised (Exn EmptySequenceError []).
Proof.
  exact (empty_mask_row_fails_whole_batch toy_env
           (toy_encoder Torch "xlnet-base-cased" "cls") _ _ _
           ["ab"; EmptyString]%string 2 1 [0; 0; 0]
           eq_refl eq_refl eq_refl eq_refl eq_refl).
Defined.

(** The design's example: one empty row under mean pooling fails the
    batch although the other row has real tokens. *)
Example empty_row_fails_mean :
  reduce_mean [[[2; 2]; [4; 4]]; [[1; 1]; [1; 1]]]%Q [[1; 1]; [0; 0]]
  = Raised (Exn EmptySequenceError []).
Proof. reflexivity. Qed.

(** ** cls pooling *)

Lemma dispatch_cls_native (self : encoder) seq pooled rest mask :
  pooling_strategy self = "cls"%string ->
  in_tuple (model_name self) native_pooled_models = true ->
  pooling_dispatch self seq (pooled :: rest) mask = ret pooled.
Proof.
  intros Hp Hn. unfold pooling_dispatch. rewrite Hp, Hn. reflexivity.
Qed.

(** C2 (as stated, refuted).  Whether the pooled output is returned
    is decided by the model name alone, not by what the forward pass
    exposes: for camembert-base the forward pass below supplies a pooled
    output as its first extra output, and 'cls' pooling still returns
    the token at the head position instead of it. *)
Lemma cls_pooled_output_ignored_for_camembert :
  exists tk mdl f pooled rest,
    backend_of (toy_encoder Torch "camembert-base" "cls") = Some (tk, mdl, f) /\
    pooling_strategy (toy_encoder Torch "camembert-base" "cls") = "cls"%string /\
    extra_outputs toy_env (toy_encoder Torch "camembert-base" "cls") tk mdl f
                  ["ab"%string] = pooled :: rest /\
    outcome (encode toy_env (toy_encoder Torch "camembert-base" "cls")
                    ["ab"%string]) = Ok [[97; -97]]%Q /\
    outcome (encode toy_env (toy_encoder Torch "camembert-base" "cls")
                    ["ab"%string]) <> Ok pooled.
Proof.
  do 5 eexists.
  split; [reflexivity|]. split; [reflexivity|]. split; [reflexivity|].
  split; [reflexivity|]. vm_compute. discriminate.
Qed.

(** C2 (amended).  Under 'cls' pooling on an initialised encoder:
    - when the model name is bert-base-uncased or roberta-base, [encode]
      returns the first extra output of the forward pass (the pooled
      output), whatever the sequence output and the mask are;
    - for every other name, whether or not the forward pass supplies a
      pooled output, with position [head], row [b] of a returned result
      is the token vector at index 0 of row [b], and [encode] returns
      when the batch is well shaped and no row is empty;
    - for every other name, with position [tail], row [b] of a returned
      result is the token vector at the highest index [j] whose mask
      entry is 1, the mask being the one of the tokenized (truncated and
      padded) batch: [j] lies inside the row, and is its last index when
      the whole row is real; [encode] returns when the batch is well
      shaped and every row has a real token. *)
Theorem cls_pooling_selects_registered_position (env : environment)
  (self : encoder) tk mdl f data :
  backend_of self = Some (tk, mdl, f) ->
  pooling_strategy self = "cls"%string ->
  (in_tuple (model_name self) native_pooled_models = true ->
   forall pooled rest,
     extra_outputs env self tk mdl f data = pooled :: rest ->
     outcome (encode env self data) = Ok pooled)
  /\
  (in_tuple (model_name self) native_pooled_models = false ->
   cls_pos self = Some head ->
   (forall b row_s row_m v,
      nth_error (sequence_output env self tk mdl f data) b = Some row_s ->
      nth_error (batch_mask env tk (max_length self) data) b = Some row_m ->
      nth_error row_s 0 = Some v ->
      forall out, outcome (encode env self data) = Ok out ->
                  nth_error out b = Some v) /\
   (forall D,
      shape_ok D (sequence_output env self tk mdl f data)
               (batch_mask env tk (max_length self) data) = true ->
      forallb (fun row_m => negb (Nat.eqb (List.length row_m) 0))
              (batch_mask env tk (max_length self) data) = true ->
      exists out, outcome (encode env self data) = Ok out))
  /\
  (in_tuple (model_name self) native_pooled_models = false ->
   cls_pos self = Some tail ->
   (forall D b row_s row_m,
      nth_error (sequence_output env self tk mdl f data) b = Some row_s ->
      nth_error (batch_mask env tk (max_length self) data) b = Some row_m ->
      row_shape_ok D row_s row_m = true ->
      has_real row_m = true ->
      exists j v,
        is_last_real row_m j /\
        (j < List.length row_m)%nat /\
        ((forall m, In m row_m -> m = 1) -> S j = List.length row_m) /\
        nth_error row_s j = Some v /\
        forall out, outcome (encode env self data) = Ok out ->
                    nth_error out b = Some v) /\
   (forall D,
      shape_ok D (sequence_output env self tk mdl f data)
               (batch_mask env tk (max_length self) data) = true ->
      forallb has_real (batch_mask env tk (max_length self) data) = true ->
      exists out, outcome (encode env self data) = Ok out)).
Proof.
  intros Hb Hp. split; [|split].
  - intros Hnat pooled rest Hextra.
    rewrite (encode_run env self tk mdl f data Hb). cbv zeta.
    rewrite Hextra, (dispatch_cls_native _ _ _ _ _ Hp Hnat). reflexivity.
  - intros Hnat Hpos.
    assert (Hd : forall seq extra mask,
               pooling_dispatch self seq extra mask
               = lift (map_rows (reduce_cls_row head) seq mask)).
    { intros. now apply dispatch_cls_extract. }
    split.
    + intros b row_s row_m v Hs Hm Hv out Hout.
      eapply (encode_row_result env self tk mdl f data (reduce_cls_row head));
        eauto.
      destruct row_s as [|w row_s]; [discriminate|].
      simpl in Hv. inversion Hv. reflexivity.
    + intros D Hshape Hrows.
      apply (encode_rows_total env self tk mdl f data (reduce_cls_row head)
               Hb Hd).
      intros b x y Hx Hy.
      pose proof (shape_ok_nth _ _ _ _ _ _ Hshape Hx Hy) as Hrow.
      destruct (row_shape_ok_inv _ _ _ Hrow) as [Hlen _].
      pose proof (forallb_nth _ _ _ _ Hrows Hy) as Hne.
      destruct x as [|w x]; simpl; [|eauto].
      simpl in Hlen. cbv beta in Hne. rewrite <- Hlen in Hne. discriminate.
  - intros Hnat Hpos.
    assert (Hd : forall seq extra mask,
               pooling_dispatch self seq extra mask
               = lift (map_rows (reduce_cls_row tail) seq mask)).
    { intros. now apply dispatch_cls_extract. }
    split.
    + intros D b row_s row_m Hs Hm Hshape Hreal.
      destruct (reduce_cls_tail_row_spec D row_s row_m Hshape Hreal)
        as (j & v & Hv & Hlast & Hj).
      exists j, v. split; [exact Hlast|]. split; [|split; [|split]].
      * apply nth_error_Some. destruct Hlast as [E _]. congruence.
      * now apply is_last_real_full.
      * exact Hj.
      * intros out Hout.
        eapply (encode_row_result env self tk mdl f data
                  (reduce_cls_row tail)); eauto.
    + intros D Hshape Hrows.
      apply (encode_rows_total env self tk mdl f data (reduce_cls_row tail)
               Hb Hd).
      intros b x y Hx Hy.
      destruct (reduce_cls_tail_row_spec D x y) as (j & v & Hv & _).
      { eapply shape_ok_nth; eauto. }
      { eapply forallb_nth; eauto. }
      eauto.
Qed.

Lemma cls_pooling_selects_registered_position_witness :
  exists j v,
    is_last_real [1; 1; 1] j /\
    S j = 3%nat /\
    nth_error [[97; -97]; [98; -98]; [99; -99]]%Q j = Some v /\
    forall out,
      outcome (encode toy_env (toy_encoder Torch "xlnet-base-cased" "cls")
                      ["ab"; "abcde"]%string) = Ok out ->
      nth_error out 1 = Some v.
Proof.
  destruct (proj1 (proj2 (proj2
             (cls_pooling_selects_registered_position toy_env
                (toy_encoder Torch "xlnet-base-cased" "cls") _ _ _
                ["ab"; "abcde"]%string eq_refl eq_refl)) eq_refl eq_refl)
             2%nat 1%nat [[97; -97]; [98; -98]; [99; -99]]%Q [1; 1; 1]
             eq_refl eq_refl eq_refl eq_refl)
    as (j & v & Hlast & _ & Hfull & Hv & Hrow).
  exists j, v. repeat split; try apply Hlast; auto.
  apply Hfull. intros m Hin. simpl in Hin.
  destruct Hin as [<-|[<-|[<-|[]]]]; reflexivity.
Defined.

(** The design's example: five real tokens truncated to [max_length = 3]
    leave the mask [1,1,1], and the tail position is index 2. *)
Example cls_tail_after_truncation :
  batch_mask toy_env
    (MkTokenizer XLNetTokenizer "xlnet-base-cased" (Some "right") (Some "<PAD>"))%string
    3 ["abcde"%string] = [[1; 1; 1]] /\
  last_real_index [1; 1; 1] = Some 2%nat /\
  outcome (encode toy_env (toy_encoder Torch "xlnet-base-cased" "cls")
                  ["abcde"%string]) = Ok [[99; -99]]%Q.
Proof. repeat split; reflexivity. Qed.

(** * Further properties of the adapter *)

(** ** Initialisation in closed form *)

Lemma post_init_result (env : environment) v gpu name p ml path tc mc :
  dict_get tokenizer_dict name = Some tc ->
  dict_get (model_dict_of v) name = Some mc ->
  post_init env (__init__ v gpu name p ml path) =
    ([ LoadTokenizer tc (load_source env name path);
       LoadModel mc (load_source env name path) ],
     Ok (MkEncoder v gpu name p ml path
           (Some (load_source env name path))
           (Some (tokenizer_after_init env name path tc))
           (cls_pos_after_init name)
           (Some (model_after_init env name path tc mc))
           (Some (tensor_func_of v)))).
Proof.
  intros Htc Hmc.
  unfold post_init, _init_tokenizer, dict_contains, dict_index, model_abspath,
    __init__, cls_pos_after_init, model_after_init, tokenizer_after_init,
    load_source.
  simpl. rewrite Htc. simpl.
  destruct (path_exists env (get_file_from_workspace env path)); simpl;
    rewrite Htc; simpl;
    destruct (in_tuple name head_models); simpl;
    destruct (str_in name "xlnet-base-cased"); simpl;
    destruct (in_tuple name custom_pad_models); simpl;
    unfold _init_model, TransformerTFEncoder_init_model,
      TransformerTorchEncoder_init_model, init_model_with, dict_index;
    destruct v; simpl in Hmc |- *; rewrite Hmc; simpl;
    destruct (in_tuple name resize_models); simpl; reflexivity.
Qed.

Lemma post_init_unsupported (env : environment) v gpu name p ml path :
  dict_get tokenizer_dict name = None ->
  post_init env (__init__ v gpu name p ml path) =
    ([LogError (not_supported_message name)], Raised (Exn ValueError [])).
Proof.
  intros Htc. unfold post_init, _init_tokenizer, dict_contains, __init__.
  simpl. rewrite Htc. reflexivity.
Qed.

Lemma post_init_missing_class (env : environment) v gpu name p ml path tc :
  dict_get tokenizer_dict name = Some tc ->
  dict_get (model_dict_of v) name = None ->
  post_init env (__init__ v gpu name p ml path) =
    ([LoadTokenizer tc (load_source env name path)],
     Raised (Exn KeyError [name])).
Proof.
  intros Htc Hmc.
  unfold post_init, _init_tokenizer, dict_contains, dict_index, model_abspath,
    __init__, load_source.
  simpl. rewrite Htc. simpl.
  destruct (path_exists env (get_file_from_workspace env path)); simpl;
    rewrite Htc; simpl;
    destruct (in_tuple name head_models); simpl;
    destruct (str_in name "xlnet-base-cased"); simpl;
    destruct (in_tuple name custom_pad_models); simpl;
    unfold _init_model, TransformerTFEncoder_init_model,
      TransformerTorchEncoder_init_model, init_model_with, dict_index;
    destruct v; simpl in Hmc |- *; rewrite Hmc; simpl; reflexivity.
Qed.

(** The keys of the tokenizer table are the eleven registry names. *)
Lemma tokenizer_dict_names (name : string) tc :
  dict_get tokenizer_dict name = Some tc -> In name supported_models.
Proof.
  unfold tokenizer_dict, supported_models.
  cbv [dict_get].
  repeat match goal with
         | |- context [String.eqb name ?k] =>
             destruct (String.eqb_spec name k) as [->|?];
               [intros _; simpl; tauto|]
         end.
  discriminate.
Qed.

Lemma torch_dict_covers_registry (name : string) tc :
  dict_get tokenizer_dict name = Some tc ->
  exists mc, dict_get torch_model_dict name = Some mc.
Proof.
  intros H. apply tokenizer_dict_names in H. simpl in H.
  repeat (destruct H as [<-|H]; [eexists; reflexivity|]).
  contradiction.
Qed.

Lemma tf_dict_misses_only_flaubert (name : string) tc :
  dict_get tokenizer_dict name = Some tc ->
  dict_get tf_model_dict name = None ->
  name = "flaubert-base-cased"%string.
Proof.
  intros H Hnone. apply tokenizer_dict_names in H. simpl in H.
  repeat (destruct H as [<-|H]; [try reflexivity; discriminate Hnone|]).
  contradiction.
Qed.

Lemma post_init_ok_inv (env : environment) v gpu name p ml path self' :
  outcome (post_init env (__init__ v gpu name p ml path)) = Ok self' ->
  exists tc mc,
    dict_get tokenizer_dict name = Some tc /\
    dict_get (model_dict_of v) name = Some mc /\
    trace (post_init env (__init__ v gpu name p ml path)) =
      [ LoadTokenizer tc (load_source env name path);
        LoadModel mc (load_source env name path) ] /\
    self' = MkEncoder v gpu name p ml path
              (Some (load_source env name path))
              (Some (tokenizer_after_init env name path tc))
              (cls_pos_after_init name)
              (Some (model_after_init env name path tc mc))
              (Some (tensor_func_of v)).
Proof.
  intros H.
  destruct (dict_get tokenizer_dict name) as [tc|] eqn:Htc.
  - destruct (dict_get (model_dict_of v) name) as [mc|] eqn:Hmc.
    + rewrite (post_init_result env v gpu name p ml path tc mc Htc Hmc) in H |- *.
      simpl in H. inversion H. exists tc, mc. auto.
    + rewrite (post_init_missing_class env v gpu name p ml path tc Htc Hmc) in H.
      discriminate.
  - rewrite (post_init_unsupported env v gpu name p ml path Htc) in H.
    discriminate.
Qed.

Lemma in_tuple_In (x : string) (t : list string) :
  in_tuple x t = true <-> In x t.
Proof.
  unfold in_tuple. rewrite existsb_exists. split.
  - intros (y & Hy & E). apply String.eqb_eq in E. now subst.
  - intros H. exists x. split; [exact H|apply String.eqb_refl].
Qed.

Lemma custom_pad_is_resize (name : string) :
  in_tuple name custom_pad_models = in_tuple name resize_models.
Proof.
  unfold in_tuple, custom_pad_models, resize_models. cbn [existsb].
  destruct (name =? "openai-gpt")%string, (name =? "gpt2")%string,
    (name =? "xlm-mlm-enfr-1024")%string, (name =? "xlnet-base-cased")%string;
    reflexivity.
Qed.

(** ** What initialisation leaves in the encoder *)

(** X1.  After a successful [post_init] the tokenizer pads on the right,
    and its pad token is set to <PAD> exactly for openai-gpt, gpt2,
    xlm-mlm-enfr-1024 and xlnet-base-cased; for every other name the pad
    token of the loaded tokenizer is left untouched. *)
Theorem init_configures_tokenizer (env : environment) v gpu name p ml path self' :
  outcome (post_init env (__init__ v gpu name p ml path)) = Ok self' ->
  exists tk,
    tokenizer self' = Some tk /\
    padding_side tk = Some "right"%string /\
    (In name [ "openai-gpt"; "gpt2"; "xlm-mlm-enfr-1024";
               "xlnet-base-cased" ]%string ->
     pad_token tk = Some "<PAD>"%string) /\
    (~ In name [ "openai-gpt"; "gpt2"; "xlm-mlm-enfr-1024";
                 "xlnet-base-cased" ]%string ->
     pad_token tk = None).
Proof.
  intros H.
  destruct (post_init_ok_inv _ _ _ _ _ _ _ _ H) as (tc & mc & _ & _ & _ & ->).
  exists (tokenizer_after_init env name path tc).
  split; [reflexivity|]. split; [reflexivity|].
  unfold tokenizer_after_init. cbn [pad_token].
  destruct (in_tuple name custom_pad_models) eqn:E.
  - split; [reflexivity|]. intros Hn. elim Hn. now apply in_tuple_In.
  - split; [|reflexivity]. intros Hin.
    apply (in_tuple_In name custom_pad_models) in Hin. congruence.
Qed.

Lemma init_configures_tokenizer_witness :
  exists tk,
    tokenizer (toy_encoder TF "gpt2" "mean") = Some tk /\
    padding_side tk = Some "right"%string /\
    pad_token tk = Some "<PAD>"%string.
Proof.
  destruct (init_configures_tokenizer toy_env TF false "gpt2" "mean" 3
              "transformer" (toy_encoder TF "gpt2" "mean") eq_refl)
    as (tk & Htk & Hside & Hpad & _).
  exists tk. repeat split; auto.
  apply Hpad. simpl. tauto.
Defined.

(** X2.  A successful [post_init] loads the tokenizer and then the model,
    and nothing else, both from the same source: the model folder of the
    workspace when it exists, the model name otherwise.  That source is
    what [_tmp_model_path] holds afterwards. *)
Theorem init_loads_both_from_one_source (env : environment)
  v gpu name p ml path self' :
  outcome (post_init env (__init__ v gpu name p ml path)) = Ok self' ->
  exists tc mc tk mdl src,
    src = (if path_exists env (get_file_from_workspace env path)
           then get_file_from_workspace env path else name) /\
    trace (post_init env (__init__ v gpu name p ml path)) =
      [LoadTokenizer tc src; LoadModel mc src] /\
    dict_get tokenizer_dict name = Some tc /\
    dict_get (model_dict_of v) name = Some mc /\
    _tmp_model_path self' = Some src /\
    tokenizer self' = Some tk /\ tok_class tk = tc /\ tok_path tk = src /\
    model self' = Some mdl /\ mdl_class mdl = mc /\ mdl_path mdl = src.
Proof.
  intros H.
  destruct (post_init_ok_inv _ _ _ _ _ _ _ _ H)
    as (tc & mc & Htc & Hmc & Htr & ->).
  exists tc, mc, (tokenizer_after_init env name path tc),
    (model_after_init env name path tc mc), (load_source env name path).
  repeat split; auto.
Qed.

Lemma init_loads_both_from_one_source_witness :
  trace (post_init (with_path toy_env "transformer")
           (__init__ Torch false "roberta-base" "mean" 3 "transformer"))
  = [ LoadTokenizer RobertaTokenizer "transformer";
      LoadModel RobertaModel "transformer" ]%string.
Proof.
  destruct (init_loads_both_from_one_source (with_path toy_env "transformer")
              Torch false "roberta-base" "mean" 3 "transformer" _ eq_refl)
    as (tc & mc & tk & mdl & src & Hsrc & Htr & Htc & Hmc & _).
  rewrite Htr. vm_compute in Htc, Hmc, Hsrc.
  inversion Htc. inversion Hmc. subst. reflexivity.
Defined.

(** X3.  After a successful [post_init] the embedding table of the model
    has been resized to the length of the tokenizer exactly when the
    tokenizer received the extra <PAD> token; otherwise neither was
    touched.  The two name lists of the source agree. *)
Theorem embeddings_resized_iff_custom_pad (env : environment)
  v gpu name p ml path self' :
  outcome (post_init env (__init__ v gpu name p ml path)) = Ok self' ->
  exists tk mdl,
    tokenizer self' = Some tk /\ model self' = Some mdl /\
    ((pad_token tk = Some "<PAD>"%string /\
      mdl_embeddings mdl = Some (tokenizer_len env tk)) \/
     (pad_token tk = None /\ mdl_embeddings mdl = None)).
Proof.
  intros H.
  destruct (post_init_ok_inv _ _ _ _ _ _ _ _ H) as (tc & mc & _ & _ & _ & ->).
  exists (tokenizer_after_init env name path tc),
    (model_after_init env name path tc mc).
  split; [reflexivity|]. split; [reflexivity|].
  unfold model_after_init. cbn [mdl_embeddings].
  rewrite <- custom_pad_is_resize.
  unfold tokenizer_after_init. cbn [pad_token].
  destruct (in_tuple name custom_pad_models); [left|right]; split; reflexivity.
Qed.

Lemma embeddings_resized_iff_custom_pad_witness :
  exists tk mdl,
    tokenizer (toy_encoder Torch "xlnet-base-cased" "cls") = Some tk /\
    model (toy_encoder Torch "xlnet-base-cased" "cls") = Some mdl /\
    ((pad_token tk = Some "<PAD>"%string /\
      mdl_embeddings mdl = Some (tokenizer_len toy_env tk)) \/
     (pad_token tk = None /\ mdl_embeddings mdl = None)).
Proof.
  exact (embeddings_resized_iff_custom_pad toy_env Torch false
           "xlnet-base-cased" "cls" 3 "transformer"
           (toy_encoder Torch "xlnet-base-cased" "cls") eq_refl).
Defined.

(** X4.  [post_init] has three outcomes, for every string given as model
    name: it succeeds when the name is in the tokenizer table and in the
    class table of the variant; it raises a bare [ValueError] when the
    name is not in the tokenizer table; and it raises [KeyError] only for
    flaubert-base-cased under the TensorFlow variant.  In particular the
    Torch variant fails only on names outside the registry. *)
Theorem post_init_outcomes (env : environment) v gpu name p ml path :
  (exists self',
      outcome (post_init env (__init__ v gpu name p ml path)) = Ok self' /\
      In name supported_models /\
      (v = TF -> name <> "flaubert-base-cased"%string))
  \/
  (outcome (post_init env (__init__ v gpu name p ml path))
   = Raised (Exn ValueError []) /\
   dict_contains tokenizer_dict name = false)
  \/
  (outcome (post_init env (__init__ v gpu name p ml path))
   = Raised (Exn KeyError [name]) /\
   v = TF /\ name = "flaubert-base-cased"%string).
Proof.
  destruct (dict_get tokenizer_dict name) as [tc|] eqn:Htc.
  - destruct (dict_get (model_dict_of v) name) as [mc|] eqn:Hmc.
    + left.
      rewrite (post_init_result env v gpu name p ml path tc mc Htc Hmc).
      eexists. split; [reflexivity|]. split.
      * eapply tokenizer_dict_names; eauto.
      * intros -> ->. discriminate Hmc.
    + right. right.
      rewrite (post_init_missing_class env v gpu name p ml path tc Htc Hmc).
      split; [reflexivity|].
      destruct v.
      * split; [reflexivity|].
        eapply tf_dict_misses_only_flaubert; eauto.
      * destruct (torch_dict_covers_registry name tc Htc) as (mc & Hmc').
        simpl in Hmc. congruence.
  - right. left.
    rewrite (post_init_unsupported env v gpu name p ml path Htc).
    split; [reflexivity|]. unfold dict_contains. now rewrite Htc.
Qed.

(** X5.  Whatever string is given as model name, when [_init_tokenizer]
    succeeds the registered position is [tail] exactly for
    xlnet-base-cased: the substring test of the source cannot be reached
    by another name. *)
Theorem tail_position_only_for_xlnet (env : environment)
  v gpu name p ml path self' :
  outcome (_init_tokenizer env (__init__ v gpu name p ml path)) = Ok self' ->
  (cls_pos self' = Some tail <-> name = "xlnet-base-cased"%string).
Proof.
  intros H.
  destruct (dict_get tokenizer_dict name) as [tc|] eqn:Htc.
  - destruct (init_tokenizer_ok env v gpu name p ml path tc Htc)
      as (self'' & Hok & Hcls).
    rewrite Hok in H. inversion H; subst self''. rewrite Hcls.
    pose proof (tokenizer_dict_names name tc Htc) as Hin. simpl in Hin.
    repeat (destruct Hin as [<-|Hin];
            [vm_compute; split; [discriminate || reflexivity
                                |discriminate || reflexivity]|]).
    contradiction.
  - unfold _init_tokenizer, dict_contains, __init__ in H. simpl in H.
    rewrite Htc in H. discriminate.
Qed.

Lemma tail_position_only_for_xlnet_witness :
  exists self',
    outcome (_init_tokenizer toy_env
               (__init__ Torch false "xlnet-base-cased" "cls" 3 "transformer"))
    = Ok self' /\
    cls_pos self' = Some tail.
Proof.
  eexists. split; [reflexivity|].
  apply (proj2 (tail_position_only_for_xlnet toy_env Torch false
                  "xlnet-base-cased" "cls" 3 "transformer" _ eq_refl)).
  reflexivity.
Defined.

(** The test itself accepts proper substrings. *)
Example tail_test_is_substring :
  str_in "base" "xlnet-base-cased" = true /\
  dict_contains tokenizer_dict "base" = false.
Proof. split; reflexivity. Qed.

(** ** Effects and edge cases of [encode] *)

Lemma dispatch_recognized_trace (self : encoder) seq extra mask :
  recognized (pooling_strategy self) = true ->
  trace (pooling_dispatch self seq extra mask) = [].
Proof.
  intros Hrec. unfold pooling_dispatch.
  destruct (pooling_strategy self =? "cls")%string eqn:Hc.
  - destruct (in_tuple (model_name self) native_pooled_models).
    + destruct extra; reflexivity.
    + destruct (cls_pos self) as [pos|]; simpl; [|reflexivity].
      destruct (reduce_cls seq mask pos); reflexivity.
  - destruct (pooling_strategy self =? "mean")%string eqn:Hm; [reflexivity|].
    destruct (pooling_strategy self =? "max")%string eqn:Hx; [reflexivity|].
    destruct (pooling_strategy self =? "min")%string eqn:Hn; [reflexivity|].
    exfalso. revert Hrec. unfold recognized, in_tuple, recognized_strategies.
    simpl. rewrite Hc, Hm, Hx, Hn. discriminate.
Qed.

(** X6.  With one of the four recognised strategies, a run of [encode]
    on an initialised encoder consists of one tokenizer call per input
    string, in input order and each with [max_length], followed by
    exactly one forward pass on the whole batch; nothing is logged,
    whether the call then returns or raises.  On an empty batch the only
    effect is the forward pass on empty matrices. *)
Theorem encode_effects_recognized (env : environment) (self : encoder)
  tk mdl f data :
  backend_of self = Some (tk, mdl, f) ->
  recognized (pooling_strategy self) = true ->
  trace (encode env self data) =
    map (fun text => Tokenize text (max_length self)) data ++
    [ Infer (map (fun text => tokenizer_encode env tk text (max_length self)) data)
            (map (fun text =>
                    mask_of (pad_token_id env tk)
                            (tokenizer_encode env tk text (max_length self)))
                 data) ]
  /\ trace (encode env self []) = [Infer [] []].
Proof.
  intros Hb Hrec.
  rewrite !(encode_run env self tk mdl f _ Hb). cbv zeta.
  unfold trace at 1 3. simpl fst.
  rewrite !(dispatch_recognized_trace _ _ _ _ Hrec).
  unfold batch_mask, batch_token_ids. rewrite map_map. split; reflexivity.
Qed.

Lemma encode_effects_recognized_witness :
  trace (encode toy_env (toy_encoder Torch "xlnet-base-cased" "cls")
                ["ab"; EmptyString]%string)
  = [ Tokenize "ab" 3; Tokenize EmptyString 3;
      Infer [[97; 98; 0]; [0; 0; 0]] [[1; 1; 0]; [0; 0; 0]] ].
Proof.
  exact (proj1 (encode_effects_recognized toy_env
                  (toy_encoder Torch "xlnet-base-cased" "cls") _ _ _
                  ["ab"; EmptyString]%string eq_refl eq_refl)).
Defined.

Lemma mask_of_no_pad (token_ids : list Z) :
  mask_of None token_ids = repeat 1 (List.length token_ids).
Proof.
  induction token_ids as [|t rest IH]; simpl; [reflexivity|].
  now rewrite IH.
Qed.

(** X7.  When the tokenizer has no pad token id ([pad_token_id] is
    [None]), the comparison with it never holds: every row of the mask
    that [encode] builds consists of 1s only, one per token, so padding
    produced by the tokenizer is not masked out. *)
Theorem mask_all_ones_without_pad_id (env : environment) (self : encoder)
  tk data :
  tokenizer self = Some tk ->
  pad_token_id env tk = None ->
  exists ids,
    outcome (tokenize_loop env self data [] []) =
      Ok (ids, map (fun row => repeat 1 (List.length row)) ids) /\
    ids = map (fun text => tokenizer_encode env tk text (max_length self)) data.
Proof.
  intros Htk Hpad.
  exists (batch_token_ids env tk (max_length self) data).
  split; [|reflexivity].
  rewrite (tokenize_loop_run env self tk data [] [] Htk).
  unfold outcome, batch_mask. simpl. rewrite Hpad.
  do 2 f_equal. apply map_ext. intros row. apply mask_of_no_pad.
Qed.

Lemma mask_all_ones_without_pad_id_witness :
  outcome (tokenize_loop toy_env_no_pad (toy_encoder Torch "ctrl" "mean")
                         ["a"%string] [] [])
  = Ok ([[97; 0; 0]], [[1; 1; 1]]).
Proof.
  destruct (mask_all_ones_without_pad_id toy_env_no_pad
              (toy_encoder Torch "ctrl" "mean") _ ["a"%string]
              eq_refl eq_refl) as (ids & Hrun & Hids).
  rewrite Hrun, Hids. reflexivity.
Defined.

(** X8.  Under 'cls' pooling with bert-base-uncased or roberta-base, a
    forward pass that returns the sequence output alone leaves
    [extra_output] empty, and [encode] raises [IndexError] on
    [extra_output[0]]; it does not fall back to extracting a token. *)
Theorem native_cls_needs_extra_output (env : environment) (self : encoder)
  tk mdl f data :
  backend_of self = Some (tk, mdl, f) ->
  pooling_strategy self = "cls"%string ->
  in_tuple (model_name self) native_pooled_models = true ->
  snd (inference env self tk mdl f data) = [] ->
  outcome (encode env self data) = Raised (Exn IndexError []).
Proof.
  intros Hb Hp Hn Hextra.
  rewrite (encode_run env self tk mdl f data Hb). cbv zeta.
  unfold extra_outputs. rewrite Hextra. simpl map.
  unfold pooling_dispatch. rewrite Hp, Hn. reflexivity.
Qed.

Lemma native_cls_needs_extra_output_witness :
  outcome (encode toy_env_bare (toy_encoder Torch "roberta-base" "cls")
                  ["ab"%string])
  = Raised (Exn IndexError []).
Proof.
  exact (native_cls_needs_extra_output toy_env_bare
           (toy_encoder Torch "roberta-base" "cls") _ _ _ ["ab"%string]
           eq_refl eq_refl eq_refl eq_refl).
Defined.

Lemma tokenize_loop_ext (env : environment) (self self' : encoder) data a b :
  tokenizer self = tokenizer self' ->
  max_length self = max_length self' ->
  tokenize_loop env self data a b = tokenize_loop env self' data a b.
Proof.
  intros Htk Hml. revert a b.
  induction data as [|text rest IH]; intros a b; simpl; [reflexivity|].
  rewrite Htk, Hml.
  destruct (tokenizer self') as [tk|]; simpl; [|reflexivity].
  now rewrite IH.
Qed.

(** X9.  [cls_pos] is read only when 'cls' pooling has to extract a
    token: if the strategy is not 'cls', or the model name is
    bert-base-uncased or roberta-base, a run of [encode] is the same
    whatever [cls_pos] holds, and also when it was never assigned. *)
Theorem cls_pos_read_only_for_extraction (env : environment) (self : encoder)
  (pos : option cls_position) data :
  pooling_strategy self <> "cls"%string \/
  in_tuple (model_name self) native_pooled_models = true ->
  encode env (with_cls_pos self pos) data = encode env self data.
Proof.
  intros Hcase. unfold encode.
  rewrite (tokenize_loop_ext env (with_cls_pos self pos) self data [] [])
    by reflexivity.
  destruct (tokenize_loop env self data [] []) as [t [[ids mask]|e]];
    [|reflexivity].
  unfold bind at 1 3. f_equal.
  unfold array2tensor, tensor2array, with_cls_pos. simpl.
  destruct (_tensor_func self) as [f|]; simpl; [|reflexivity].
  destruct (variant self), (on_gpu self), (model self) as [mdl|]; simpl;
    try reflexivity;
    match goal with
    | |- context [model_call env mdl ?a ?b] =>
        destruct (model_call env mdl a b) as [seq extra]
    end;
    (destruct (pooling_strategy self =? "cls")%string eqn:Hc;
     [ destruct Hcase as [Hne|Hnat];
       [ apply String.eqb_eq in Hc; contradiction
       | rewrite Hnat; reflexivity ]
     | reflexivity ]).
Qed.

Lemma cls_pos_read_only_for_extraction_witness :
  encode toy_env (with_cls_pos (toy_encoder Torch "gpt2" "mean") (Some head))
         ["ab"%string]
  = encode toy_env (toy_encoder Torch "gpt2" "mean") ["ab"%string].
Proof.
  apply (cls_pos_read_only_for_extraction toy_env
           (toy_encoder Torch "gpt2" "mean") (Some head) ["ab"%string]).
  left. discriminate.
Defined.

(** X13.  A successful [post_init] never changes the configuration
    (variant, accelerator flag, model name, pooling strategy, maximal
    length, model path), also when run on an encoder that was already
    initialised, and it always leaves a tokenizer, a model and a tensor
    constructor in place. *)
Theorem post_init_keeps_configuration (env : environment) (self self' : encoder) :
  outcome (post_init env self) = Ok self' ->
  variant self' = variant self /\
  on_gpu self' = on_gpu self /\
  model_name self' = model_name self /\
  pooling_strategy self' = pooling_strategy self /\
  max_length self' = max_length self /\
  raw_model_path self' = raw_model_path self /\
  exists tk mdl f, backend_of self' = Some (tk, mdl, f).
Proof.
  destruct self as [v gpu name p ml path tmp tok cp mdl tf].
  unfold post_init, _init_tokenizer, dict_contains, dict_index, model_abspath.
  simpl.
  destruct (path_exists env (get_file_from_workspace env path)); simpl;
    (destruct (dict_get tokenizer_dict name) as [tc|]; simpl;
     [|discriminate]);
    destruct (in_tuple name head_models); simpl;
    destruct (str_in name "xlnet-base-cased"); simpl;
    destruct (in_tuple name custom_pad_models); simpl;
    unfold _init_model, TransformerTFEncoder_init_model,
      TransformerTorchEncoder_init_model, init_model_with, dict_index;
    destruct v; simpl;
    match goal with
    | |- context [dict_get ?d name] =>
        destruct (dict_get d name) as [mc|]; simpl; [|discriminate]
    end;
    destruct (in_tuple name resize_models); simpl;
    intros H; inversion H; subst self'; simpl;
    repeat split; do 3 eexists; reflexivity.
Qed.

Lemma post_init_keeps_configuration_witness :
  pooling_strategy (toy_encoder TF "ctrl" "max") = "max"%string /\
  max_length (toy_encoder TF "ctrl" "max") = 3.
Proof.
  destruct (post_init_keeps_configuration toy_env
              (__init__ TF false "ctrl" "max" 3 "transformer")
              (toy_encoder TF "ctrl" "max") eq_refl)
    as (_ & _ & _ & Hp & Hml & _).
  split; [exact Hp|exact Hml].
Defined.

(** ** Snapshots *)

Lemma with_path_exists (env : environment) (p : string) :
  path_exists (with_path env p) p = true.
Proof. unfold with_path. simpl. now rewrite String.eqb_refl. Qed.

Lemma getstate_run {S : Type} (sg : encoder -> S) (env : environment)
  (self : encoder) tk mdl f :
  backend_of self = Some (tk, mdl, f) ->
  __getstate__ sg env self =
    ((if path_exists env (model_abspath env self) then []
      else [ LogInfo (create_folder_message (model_abspath env self));
             Mkdir (model_abspath env self) ])
       ++ [ SaveModel mdl (model_abspath env self);
            SaveTokenizer tk (model_abspath env self) ],
     (if path_exists env (model_abspath env self) then env
      else with_path env (model_abspath env self)),
     Ok (sg self)).
Proof.
  intros Hb. destruct (backend_of_inv _ _ _ _ Hb) as (Htk & Hm & _).
  unfold __getstate__. rewrite Hm, Htk.
  destruct (path_exists env (model_abspath env self)); reflexivity.
Qed.

(** X11.  [__getstate__] on an initialised encoder saves the model and
    then the tokenizer into the model folder and returns the parent's
    state; afterwards the folder exists, so initialising an encoder with
    the same model path (any name known to the variant) loads tokenizer
    and model from that folder instead of the pretrained name. *)
Theorem snapshot_then_init_loads_folder {S : Type} (sg : encoder -> S)
  (env : environment) (self : encoder) tk mdl f :
  backend_of self = Some (tk, mdl, f) ->
  exists t0 env',
    __getstate__ sg env self =
      (t0 ++ [ SaveModel mdl (model_abspath env self);
               SaveTokenizer tk (model_abspath env self) ],
       env', Ok (sg self)) /\
    path_exists env' (model_abspath env self) = true /\
    forall v gpu name p ml tc mc,
      dict_get tokenizer_dict name = Some tc ->
      dict_get (model_dict_of v) name = Some mc ->
      trace (post_init env' (__init__ v gpu name p ml (raw_model_path self))) =
        [ LoadTokenizer tc (model_abspath env self);
          LoadModel mc (model_abspath env self) ].
Proof.
  intros Hb. rewrite (getstate_run sg env self tk mdl f Hb).
  do 2 eexists. split; [reflexivity|].
  assert (Hex : path_exists
                  (if path_exists env (model_abspath env self) then env
                   else with_path env (model_abspath env self))
                  (model_abspath env self) = true).
  { destruct (path_exists env (model_abspath env self)) eqn:E;
      [exact E|apply with_path_exists]. }
  split; [exact Hex|].
  intros v gpu name p ml tc mc Htc Hmc.
  rewrite (post_init_result _ v gpu name p ml _ tc mc Htc Hmc).
  unfold trace, load_source. simpl fst.
  assert (Hgf : forall q,
             get_file_from_workspace
               (if path_exists env (model_abspath env self) then env
                else with_path env (model_abspath env self)) q
             = get_file_from_workspace env q).
  { intros q. destruct (path_exists env (model_abspath env self)); reflexivity. }
  rewrite !Hgf. unfold model_abspath in Hex |- *. rewrite Hex. reflexivity.
Qed.

Lemma snapshot_then_init_loads_folder_witness :
  exists t0 env',
    __getstate__ (fun _ => tt) toy_env (toy_encoder Torch "gpt2" "mean") =
      (t0 ++ [ SaveModel (MkModel GPT2Model "gpt2" (Some 100%nat))
                         "transformer"%string;
               SaveTokenizer (MkTokenizer GPT2Tokenizer "gpt2"
                                          (Some "right"%string)
                                          (Some "<PAD>"%string))
                             "transformer"%string ],
       env', Ok tt) /\
    path_exists env' "transformer" = true /\
    trace (post_init env'
             (__init__ Torch false "gpt2" "mean" 3 "transformer")) =
      [ LoadTokenizer GPT2Tokenizer "transformer";
        LoadModel GPT2Model "transformer" ].
Proof.
  destruct (snapshot_then_init_loads_folder (fun _ => tt) toy_env
              (toy_encoder Torch "gpt2" "mean") _ _ _ eq_refl)
    as (t0 & env' & Hrun & Hex & Hinit).
  exists t0, env'. split; [exact Hrun|]. split; [exact Hex|].
  exact (Hinit Torch false "gpt2"%string "mean"%string 3
               GPT2Tokenizer GPT2Model eq_refl eq_refl).
Defined.

(** X12.  [__getstate__] creates the model folder only when it does not
    exist, logging that it does so; a second snapshot in the resulting
    file system creates nothing and only saves the model and the
    tokenizer again. *)
Theorem snapshot_creates_folder_once {S : Type} (sg : encoder -> S)
  (env : environment) (self : encoder) tk mdl f t env' r :
  backend_of self = Some (tk, mdl, f) ->
  __getstate__ sg env self = (t, env', r) ->
  (forall q, In (Mkdir q) t ->
             q = model_abspath env self /\ path_exists env q = false) /\
  (path_exists env (model_abspath env self) = false ->
   In (Mkdir (model_abspath env self)) t) /\
  __getstate__ sg env' self =
    ([ SaveModel mdl (model_abspath env self);
       SaveTokenizer tk (model_abspath env self) ],
     env', Ok (sg self)).
Proof.
  intros Hb Hrun.
  rewrite (getstate_run sg env self tk mdl f Hb) in Hrun.
  destruct (path_exists env (model_abspath env self)) eqn:E;
    inversion Hrun; subst t env' r; clear Hrun.
  - split; [|split].
    + intros q [H|[H|[]]]; discriminate.
    + discriminate.
    + rewrite (getstate_run sg env self tk mdl f Hb), E. reflexivity.
  - split; [|split].
    + intros q [H|[H|[H|[H|[]]]]]; try discriminate.
      inversion H. subst q. auto.
    + intros _. simpl. auto.
    + rewrite (getstate_run sg _ self tk mdl f Hb).
      unfold model_abspath in *. simpl get_file_from_workspace.
      rewrite with_path_exists. reflexivity.
Qed.

Lemma snapshot_creates_folder_once_witness :
  __getstate__ (fun _ => tt) (with_path toy_env "transformer")
               (toy_encoder TF "bert-base-uncased" "mean") =
    ([ SaveModel (MkModel TFBertModel "bert-base-uncased"%string None)
                 "transformer"%string;
       SaveTokenizer (MkTokenizer BertTokenizer "bert-base-uncased"%string
                                  (Some "right"%string) None)
                     "transformer"%string ],
     with_path toy_env "transformer", Ok tt).
Proof.
  exact (proj2 (proj2 (snapshot_creates_folder_once (fun _ => tt) toy_env
                         (toy_encoder TF "bert-base-uncased" "mean")
                         _ _ _ _ _ _ eq_refl eq_refl))).
Defined.
